(** * NASL plugin loading and launching (src/nasl_plugins.c)

    A shallow embedding of [prefs_add_nvti], [nasl_plugin_add],
    [nasl_plugin_launch] and [nasl_thread].  The C functions are sequences
    of calls into libraries (GLib, gvm-libs, the NVT cache, the NASL
    interpreter, libc); the embedding keeps the control flow of the source
    and threads an explicit [world] through those calls.  Every external
    call leaves an [event] in the world's trace, so that statements such as
    "the interpreter is not invoked" or "exactly one marker is sent" are
    statements about the events a function appends. *)

From Stdlib Require Import ZArith Ascii String.
From stdpp Require Import gmap strings list fin_maps.

Open Scope Z_scope.

(** ** GLib string helpers *)

Module GLib.

(** The characters GLib's table [g_ascii_table] marks as space: blank,
    tab, line feed, form feed and carriage return.  The vertical tab
    (code 11) is not among them. *)
Definition space_chars : list ascii :=
  [" "; "009"; "010"; "012"; "013"]%char.

(** [g_ascii_isspace]: the codes 32, 9, 10, 12 and 13. *)
Definition g_ascii_isspace (c : ascii) : bool :=
  let n := nat_of_ascii c in
  Nat.eqb n 32 || Nat.eqb n 9 || Nat.eqb n 10 || Nat.eqb n 12 || Nat.eqb n 13.

(** [g_strchomp]: the loop walks back from the end of the string and
    overwrites whitespace with the terminator until it meets a character
    that is not whitespace.  On a Rocq string: a character is kept unless
    it is whitespace and nothing is kept after it. *)
Fixpoint g_strchomp (s : string) : string :=
  match s with
  | EmptyString => EmptyString
  | String c r =>
      match g_strchomp r with
      | EmptyString => if g_ascii_isspace c then EmptyString else String c EmptyString
      | r' => String c r'
      end
  end.

(** Every character of [s] is whitespace. *)
Fixpoint all_space (s : string) : bool :=
  match s with
  | EmptyString => true
  | String c r => g_ascii_isspace c && all_space r
  end.

(** The last character of [s], if any. *)
Fixpoint last_char (s : string) : option ascii :=
  match s with
  | EmptyString => None
  | String c EmptyString => Some c
  | String _ r => last_char r
  end.

(** [g_strdup] followed by [g_strchomp] on a pointer that may be NULL:
    [g_strdup (NULL)] is NULL, and [g_strchomp] hands a NULL pointer
    back. *)
Definition g_strchomp_dup (s : option string) : option string :=
  match s with
  | Some s => Some (g_strchomp s)
  | None => None
  end.

(** What a [%s] conversion prints for a pointer that may be NULL: the C
    library prints "(null)" for NULL. *)
Definition printf_s (s : option string) : string :=
  match s with
  | Some s => s
  | None => "(null)"
  end.

End GLib.

(** ** Data model *)

(** [nvtpref_t]: one declared preference.  The three fields are
    pointers to C strings, each of which may be NULL. *)
Record nvtpref_t := mk_nvtpref {
  nvtpref_name : option string;
  nvtpref_type : option string;
  nvtpref_default : option string
}.

(** [nvti_t]: a plugin descriptor; the identifier and the name are
    pointers to C strings that may be NULL. *)
Record nvti_t := mk_nvti {
  nvti_oid : option string;
  nvti_name : option string;
  nvti_prefs : list nvtpref_t
}.

(** [nvti_new ()]: a zeroed descriptor: no identifier, no name and no
    preference. *)
Definition nvti_new : nvti_t :=
  {| nvti_oid := None; nvti_name := None; nvti_prefs := [] |}.

Definition nvti_pref_len (n : nvti_t) : nat := length (nvti_prefs n).
Definition nvti_pref (n : nvti_t) (i : nat) : option nvtpref_t := nvti_prefs n !! i.

(** [struct host_info]: the worker reads its [name] only. *)
Record host_info := mk_host_info { hi_name : string }.

(** [kb_t]: a knowledge-base handle; opaque here. *)
Definition kb_t := Z.

(** [struct arglist]: a linked list of named values.  [ARG_PTR] entries
    are split by the kind of object the pointer leads to. *)
Inductive arglist :=
| arg_end
| arg_cell (name : string) (value : arg_value) (next : arglist)
with arg_value :=
| ARG_PTR_NVTI (n : nvti_t)
| ARG_PTR_HOST (h : host_info)
| ARG_PTR_KB (k : kb_t)
| ARG_PTR_SIZE (z : Z)
| ARG_ARGLIST (l : arglist).

(** [arg_add_value]: a new cell at the end of the list. *)
Fixpoint arg_add_value (a : arglist) (name : string) (v : arg_value) : arglist :=
  match a with
  | arg_end => arg_cell name v arg_end
  | arg_cell k v0 r => arg_cell k v0 (arg_add_value r name v)
  end.

(** [arg_get_value]: the value of the first cell of that name, NULL when
    there is none. *)
Fixpoint arg_get_value (a : arglist) (name : string) : option arg_value :=
  match a with
  | arg_end => None
  | arg_cell k v r => if String.eqb k name then Some v else arg_get_value r name
  end.

(** [arg_set_value]: overwrites the value of the first cell of that name;
    a list without such a cell is left as it is. *)
Fixpoint arg_set_value (a : arglist) (name : string) (v : arg_value) : arglist :=
  match a with
  | arg_end => arg_end
  | arg_cell k v0 r =>
      if String.eqb k name then arg_cell k v r else arg_cell k v0 (arg_set_value r name v)
  end.

(** [struct nasl_thread_args]. *)
Record nasl_thread_args := mk_nargs {
  na_args : arglist;
  na_name : string;
  na_oid : option string;
  na_soc : Z
}.

(** File attributes seen by [stat] and [utime]: the two timestamps, and
    whether the calling process is allowed to set them (it owns the file or
    is privileged, and the file system is writable). *)
Record file_times := mk_file_times {
  st_atime : Z;
  st_mtime : Z;
  utime_permitted : bool
}.

(** Attributes of the running process used by [nice] and by the
    privilege drop: the nice value (higher means lower scheduling
    priority) and the effective user id. *)
Record proc_t := mk_proc {
  p_nice : Z;
  p_euid : Z
}.

(** Messages passed to [g_debug]. *)
Inductive log_msg :=
| LogCouldNotBeLoaded (fullname : string)
| LogTimestampFixed (fullname : string)
| LogTimestampNotFixed (fullname : string)
| LogNotAddedToCache (name : string)
| LogFailedToLoad (name : string)
| LogFailedToLoadNoOid (name : string)
| LogUnableToRenice (errno : Z)
| LogFailedToDropPrivileges (name : string).

(** Calls that leave the process or touch a shared store. *)
Inductive event :=
| EvPrefsSet (key : string) (value : option string)
| EvCacheGet (name : string)
| EvCacheAdd (n : nvti_t) (name : string)
| EvCacheReset
| EvExec (args : arglist) (name : string) (oid : option string) (mode : Z)
| EvStat (path : string)
| EvUtime (path : string) (actime modtime : Z)
| EvNvtiFree (n : nvti_t)
| EvDebug (m : log_msg)
| EvNice (inc : Z)
| EvChildCleanup
| EvKbLnkReset (k : kb_t)
| EvProctitle (host name : string)
| EvCreateProcess (nargs : nasl_thread_args)
| EvArgFree
| EvDropPrivileges
| EvErrorFree
| EvSend (soc : Z) (payload : option string) (flags : Z).

(** ** Interfaces of the libraries the file is built against *)

(** Constants of headers that are not part of this file. *)
Class Headers := {
  PATH_MAX : nat;                         (* limits.h *)
  NASL_EXEC_DESCR : Z;                    (* nasl.h *)
  NASL_ALWAYS_SIGNED : Z;                 (* nasl.h *)
  INTERNAL_COMM_MSG_TYPE_CTRL : Z;        (* internal_com.h *)
  INTERNAL_COMM_CTRL_FINISHED : Z;        (* internal_com.h *)
  GVM_DROP_PRIVILEGES_OK : Z;             (* drop_privileges.h *)
  GVM_DROP_PRIVILEGES_FAIL_NOT_ROOT : Z   (* drop_privileges.h *)
}.

(** The NVT cache behind [nvticache_get (name)] and
    [nvticache_add (nvti, name)]: a lookup and a store on the cache's own
    state.  What a lookup returns after a store is the cache's business. *)
Class NvtiCache := {
  cache_t : Type;
  cache_get : string -> cache_t -> option nvti_t;
  cache_add : nvti_t -> string -> cache_t -> cache_t
}.

(** [nasl_run]: the NASL interpreter behind
    [exec_nasl_script (script_infos, name, oid, mode)]; its status, and the
    argument list as the run leaves it (the C function modifies the objects
    the list points to in place).
    [privileges_drop]: the facility behind [drop_privileges (NULL, &error)];
    its result code and the effective user id afterwards.
    [spawn_pid]: the pid [create_process] returns to the parent, negative
    when the fork fails.
    The calls are taken to return: a run of the interpreter that kills or
    hangs the process is outside the model. *)
Class Externals := {
  nasl_run : arglist -> string -> option string -> Z -> Z * arglist;
  privileges_drop : proc_t -> Z * Z;
  spawn_pid : proc_t -> Z
}.

(** errno.h *)
Definition EPERM : Z := 1.

Section Embedding.

Context {hdr : Headers} {nc : NvtiCache} {ext : Externals}.

(** ** The world a call runs in *)

Record world := mk_world {
  w_prefs : gmap string (option string);     (* the global preferences *)
  w_cache : cache_t;                (* the NVT cache *)
  w_files : gmap string file_times; (* files, by path *)
  w_time : Z;                       (* what [time (NULL)] returns *)
  w_stack : Z;                      (* what an uninitialised [st_mtime] holds *)
  w_proc : proc_t;                  (* the calling process *)
  w_errno : Z;
  w_trace : list event              (* oldest first *)
}.

Definition with_prefs (p : gmap string (option string)) (w : world) : world :=
  mk_world p (w_cache w) (w_files w) (w_time w) (w_stack w) (w_proc w) (w_errno w) (w_trace w).
Definition with_cache (c : cache_t) (w : world) : world :=
  mk_world (w_prefs w) c (w_files w) (w_time w) (w_stack w) (w_proc w) (w_errno w) (w_trace w).
Definition with_files (f : gmap string file_times) (w : world) : world :=
  mk_world (w_prefs w) (w_cache w) f (w_time w) (w_stack w) (w_proc w) (w_errno w) (w_trace w).
Definition with_proc (p : proc_t) (w : world) : world :=
  mk_world (w_prefs w) (w_cache w) (w_files w) (w_time w) (w_stack w) p (w_errno w) (w_trace w).
Definition with_errno (e : Z) (w : world) : world :=
  mk_world (w_prefs w) (w_cache w) (w_files w) (w_time w) (w_stack w) (w_proc w) e (w_trace w).
Definition with_trace (t : list event) (w : world) : world :=
  mk_world (w_prefs w) (w_cache w) (w_files w) (w_time w) (w_stack w) (w_proc w) (w_errno w) t.

(** A call reads and updates the world and returns a value. *)
Definition M (A : Type) : Type := world -> A * world.

Definition ret {A} (a : A) : M A := fun w => (a, w).
Definition bind {A B} (m : M A) (k : A -> M B) : M B :=
  fun w => let (a, w') := m w in k a w'.

Notation "x <- m ;; k" := (bind m (fun x => k))
  (at level 100, m at next level, right associativity).
Notation "m ;; k" := (bind m (fun _ => k))
  (at level 100, right associativity).

Definition emit (e : event) : M unit :=
  fun w => (tt, with_trace (w_trace w ++ [e]) w).

(** ** The calls of the source, one definition each *)

Definition g_debug (m : log_msg) : M unit := emit (EvDebug m).

(** [prefs_get_bool] (gvm-libs): true when the key is set to a value
    that is not NULL and is the string "yes". *)
Definition prefs_get_bool (key : string) : M bool :=
  fun w => (bool_decide (w_prefs w !! key = Some (Some "yes")), w).

(** [prefs_set] (gvm-libs): inserts the key with a [g_strdup] copy of the
    value (NULL for NULL) into the hash table of preferences, replacing an
    earlier value of the key. *)
Definition prefs_set (key : string) (value : option string) : M unit :=
  emit (EvPrefsSet key value) ;;
  fun w => (tt, with_prefs (<[key := value]> (w_prefs w)) w).

Definition nvticache_get (name : string) : M (option nvti_t) :=
  emit (EvCacheGet name) ;;
  fun w => (cache_get name (w_cache w), w).

Definition nvticache_add (n : nvti_t) (name : string) : M unit :=
  emit (EvCacheAdd n name) ;;
  fun w => (tt, with_cache (cache_add n name (w_cache w)) w).

Definition nvticache_reset : M unit := emit EvCacheReset.

Definition nvti_free (n : nvti_t) : M unit := emit (EvNvtiFree n).

Definition exec_nasl_script (args : arglist) (name : string) (oid : option string)
    (mode : Z) : M (Z * arglist) :=
  emit (EvExec args name oid mode) ;;
  ret (nasl_run args name oid mode).

Definition time : M Z := fun w => (w_time w, w).

(** The indeterminate [st_mtime] of a [struct stat] declared without an
    initialiser. *)
Definition uninitialised_mtime : M Z := fun w => (w_stack w, w).

(** [stat (path, &buf)]: fills the buffer when the file exists, leaves it
    as it was otherwise.  Returns the status and the [st_mtime] the
    buffer holds afterwards. *)
Definition stat (path : string) (buf_mtime : Z) : M (Z * Z) :=
  emit (EvStat path) ;;
  fun w => match w_files w !! path with
           | Some f => ((0, st_mtime f), w)
           | None => ((-1, buf_mtime), w)
           end.

(** [utime (path, &times)]: sets both timestamps when the file exists and
    the process may change them; fails and changes nothing otherwise. *)
Definition utime (path : string) (actime modtime : Z) : M Z :=
  emit (EvUtime path actime modtime) ;;
  fun w => match w_files w !! path with
           | Some f =>
               if utime_permitted f
               then (0, with_files (<[path := mk_file_times actime modtime (utime_permitted f)]>
                                     (w_files w)) w)
               else (-1, w)
           | None => (-1, w)
           end.

Definition set_errno (e : Z) : M unit := fun w => (tt, with_errno e w).
Definition errno : M Z := fun w => (w_errno w, w).

(** [nice (inc)] (POSIX): adds [inc] to the nice value, kept within
    -20 .. 19, and returns the new nice value; only a privileged process
    may lower its nice value, any other gets -1 with errno EPERM. *)
Definition nice (inc : Z) : M Z :=
  emit (EvNice inc) ;;
  fun w =>
    let p := w_proc w in
    if (inc <? 0) && negb (p_euid p =? 0)
    then (-1, with_errno EPERM w)
    else let n := Z.max (-20) (Z.min 19 (p_nice p + inc)) in
         (n, with_proc (mk_proc n (p_euid p)) w).

Definition drop_privileges : M Z :=
  emit EvDropPrivileges ;;
  fun w =>
    let (r, uid) := privileges_drop (w_proc w) in
    (r, with_proc (mk_proc (p_nice (w_proc w)) uid) w).

Definition g_error_free : M unit := emit EvErrorFree.
Definition pluginlaunch_child_cleanup : M unit := emit EvChildCleanup.
Definition kb_lnk_reset (kb : kb_t) : M unit := emit (EvKbLnkReset kb).
Definition proctitle_set (host name : string) : M unit := emit (EvProctitle host name).

Definition internal_send (soc : Z) (data : option string) (msg_type : Z) : M unit :=
  emit (EvSend soc data msg_type).

(** ** [prefs_add_nvti] *)

(** The key built by [g_strdup_printf ("%s[%s]:%s", ...)] from the
    descriptor's name, the preference's type and the chomped copy of the
    preference's name; a NULL pointer among them is printed as "(null)". *)
Definition pref_key (nvti : nvti_t) (np : nvtpref_t) : string :=
  let cname := GLib.g_strchomp_dup (nvtpref_name np) in
  GLib.printf_s (nvti_name nvti) +:+ "[" +:+ GLib.printf_s (nvtpref_type np) +:+ "]:" +:+
  GLib.printf_s cname.

(** The [for] loop from index [i], with [todo] iterations left.  The
    index stays below [nvti_pref_len], so [nvti_pref] finds an element;
    the other branch is not reached. *)
Fixpoint prefs_add_nvti_from (nvti : nvti_t) (i : nat) (todo : nat) : M unit :=
  match todo with
  | O => ret tt
  | S todo' =>
      match nvti_pref nvti i with
      | Some np =>
          prefs_set (pref_key nvti np) (nvtpref_default np) ;;
          prefs_add_nvti_from nvti (S i) todo'
      | None => ret tt
      end
  end.

Definition prefs_add_nvti (nvti : option nvti_t) : M unit :=
  match nvti with
  | None => ret tt
  | Some n => prefs_add_nvti_from n 0 (nvti_pref_len n)
  end.

(** ** [nasl_plugin_add] *)

(** [snprintf (fullname, sizeof (fullname), "%s/%s", folder, name)] with a
    buffer of [PATH_MAX + 1] bytes: at most [PATH_MAX] characters are
    kept. *)
Definition snprintf_fullname (folder name : string) : string :=
  String.substring 0 PATH_MAX (folder +:+ "/" +:+ name).

(** The descriptor [new_nvti] points to once the interpreter has run: the
    object the "NVTI" cell leads to, or the zeroed descriptor when the
    run left no such cell. *)
Definition pointee_nvti (args : arglist) : nvti_t :=
  match arg_get_value args "NVTI" with
  | Some (ARG_PTR_NVTI n) => n
  | _ => nvti_new
  end.

(** The block under "Check mtime of plugin before caching it": [now] is
    the current time less one second; a file whose modification time lies
    after it gets both timestamps set to [now].  The status of [stat] is
    not looked at. *)
Definition fix_future_mtime (fullname : string) : M unit :=
  t <- time ;;
  let now := t - 1 in
  junk <- uninitialised_mtime ;;
  plug_stat <- stat fullname junk ;;
  if snd plug_stat >? now
  then
    u <- utime fullname now now ;;
    if u =? 0
    then g_debug (LogTimestampFixed fullname)
    else g_debug (LogTimestampNotFixed fullname)
  else ret tt.

(** A [return] inside the cache-miss block is [inl] of the returned
    code; [inr] carries the value of [nvti] on leaving the block. *)
Definition nasl_plugin_add (folder name : string) : M Z :=
  let fullname := snprintf_fullname folder name in
  no_sig <- prefs_get_bool "nasl_no_signature_check" ;;
  let nasl_mode :=
    if no_sig then Z.lor NASL_EXEC_DESCR NASL_ALWAYS_SIGNED else NASL_EXEC_DESCR in
  nvti <- nvticache_get name ;;
  r <- match nvti with
       | None =>
           let plugin_args := arg_add_value arg_end "NVTI" (ARG_PTR_NVTI nvti_new) in
           res <- exec_nasl_script plugin_args fullname None nasl_mode ;;
           if fst res <? 0
           then
             g_debug (LogCouldNotBeLoaded fullname) ;;
             emit EvArgFree ;;
             ret (inl (-1))
           else
             emit EvArgFree ;;
             let new_nvti := pointee_nvti (snd res) in
             fix_future_mtime fullname ;;
             nvti' <- match nvti_oid new_nvti with
                      | Some _ =>
                          nvticache_add new_nvti name ;;
                          nvticache_get name
                      | None =>
                          g_debug (LogNotAddedToCache name) ;;
                          ret None
                      end ;;
             nvti_free new_nvti ;;
             ret (inr nvti')
       | Some _ => ret (inr nvti)
       end ;;
  match r with
  | inl code => ret code
  | inr None =>
      g_debug (LogFailedToLoad name) ;;
      ret (-1)
  | inr (Some n) =>
      match nvti_oid n with
      | None =>
          g_debug (LogFailedToLoadNoOid name) ;;
          nvti_free n ;;
          ret (-1)
      | Some _ =>
          prefs_add_nvti (Some n) ;;
          nvti_free n ;;
          ret 0
      end
  end.

(** ** [nasl_thread] and [nasl_plugin_launch] *)

(** The body of the worker process.  The result is [true] when the body
    runs to its end; it is [false] when the process dies on the way,
    which happens where the body follows a pointer [arg_get_value]
    returned as NULL ([kb_lnk_reset] and [hostinfo->name]). *)
Definition nasl_thread (nargs : nasl_thread_args) : M bool :=
  let args := na_args nargs in
  let globals := arg_get_value args "globals" in
  let hostinfo := arg_get_value args "HOSTNAME" in
  let name := na_name nargs in
  let nasl_mode := 0 in
  nvticache_reset ;;
  be_nice <- prefs_get_bool "be_nice" ;;
  (if be_nice
   then
     set_errno 0 ;;
     nice_retval <- nice (-5) ;;
     e <- errno ;;
     if (nice_retval =? -1) && negb (e =? 0)
     then g_debug (LogUnableToRenice e)
     else ret tt
   else ret tt) ;;
  pluginlaunch_child_cleanup ;;
  match arg_get_value args "key" with
  | Some (ARG_PTR_KB kb) =>
      kb_lnk_reset kb ;;
      let args :=
        match globals with
        | Some (ARG_ARGLIST g) =>
            arg_set_value args "globals"
              (ARG_ARGLIST (arg_set_value g "global_socket" (ARG_PTR_SIZE (na_soc nargs))))
        | _ => args
        end in
      match hostinfo with
      | Some (ARG_PTR_HOST h) =>
          proctitle_set (hi_name h) name ;;
          no_sig <- prefs_get_bool "nasl_no_signature_check" ;;
          let nasl_mode := if no_sig then Z.lor nasl_mode NASL_ALWAYS_SIGNED else nasl_mode in
          want_drop <- prefs_get_bool "drop_privileges" ;;
          (if want_drop
           then
             drop_priv_res <- drop_privileges ;;
             if negb (drop_priv_res =? GVM_DROP_PRIVILEGES_OK)
             then
               (if negb (drop_priv_res =? GVM_DROP_PRIVILEGES_FAIL_NOT_ROOT)
                then g_debug (LogFailedToDropPrivileges name)
                else ret tt) ;;
               g_error_free
             else ret tt
           else ret tt) ;;
          exec_nasl_script args name (na_oid nargs) nasl_mode ;;
          internal_send (na_soc nargs) None
            (Z.lor INTERNAL_COMM_MSG_TYPE_CTRL INTERNAL_COMM_CTRL_FINISHED) ;;
          ret true
      | _ => ret false
      end
  | _ => ret false
  end.

(** The argument bundle [nasl_plugin_launch] hands to the worker. *)
Definition launch_args (globals : arglist) (hostinfo : host_info) (kb : kb_t)
    (name : string) (oid : option string) (soc : Z) : nasl_thread_args :=
  let plugin := arg_end in
  let plugin := arg_add_value plugin "HOSTNAME" (ARG_PTR_HOST hostinfo) in
  let plugin := arg_add_value plugin "globals" (ARG_ARGLIST globals) in
  let plugin := arg_add_value plugin "key" (ARG_PTR_KB kb) in
  mk_nargs plugin name oid soc.

(** [nasl_plugin_launch]: the value returned to the parent, the parent's
    world, and, when the fork succeeded, the run of [nasl_thread] in the
    child, which starts from a copy of the parent's world. *)
Definition nasl_plugin_launch (globals : arglist) (hostinfo : host_info) (kb : kb_t)
    (name : string) (oid : option string) (soc : Z) (w : world)
    : Z * world * option (bool * world) :=
  let nargs := launch_args globals hostinfo kb name oid soc in
  let w1 := snd (emit (EvCreateProcess nargs) w) in
  let module := spawn_pid (w_proc w1) in
  let child := if module <? 0 then None else Some (nasl_thread nargs w1) in
  let w2 := snd (emit EvArgFree w1) in
  (module, w2, child).

(** ** Vocabulary of the statements *)

(** The events a call appends to the trace. *)
Definition events_of {A} (m : M A) (w : world) : list event :=
  drop (length (w_trace w)) (w_trace (snd (m w))).

(** The argument list [nasl_plugin_add] hands to the interpreter. *)
Definition descr_args : arglist :=
  arg_add_value arg_end "NVTI" (ARG_PTR_NVTI nvti_new).

(** The interpreter mode [nasl_plugin_add] computes in world [w]. *)
Definition descr_mode (w : world) : Z :=
  if bool_decide (w_prefs w !! "nasl_no_signature_check" = Some (Some "yes"))
  then Z.lor NASL_EXEC_DESCR NASL_ALWAYS_SIGNED else NASL_EXEC_DESCR.

(** What the interpreter answers when [nasl_plugin_add] calls it. *)
Definition descr_run (folder name : string) (w : world) : Z * arglist :=
  nasl_run descr_args (snprintf_fullname folder name) None (descr_mode w).

(** The world in which the parsed descriptor is examined: the lookup, the
    run and the timestamp block are behind. *)
Definition world_after_parse (folder name : string) (w : world) : world :=
  let fullname := snprintf_fullname folder name in
  snd (fix_future_mtime fullname
         (with_trace (w_trace w ++ [EvCacheGet name;
                                    EvExec descr_args fullname None (descr_mode w);
                                    EvArgFree]) w)).

(** The descriptor a cache lookup of [name] returns in [w]. *)
Definition fetched_nvti (name : string) (w : world) : option nvti_t :=
  cache_get name (w_cache w).

(** The descriptor parsed on a cache miss, when the run succeeded. *)
Definition parsed_nvti (folder name : string) (w : world) : option nvti_t :=
  match fetched_nvti name w with
  | Some _ => None
  | None =>
      let res := descr_run folder name w in
      if fst res <? 0 then None else Some (pointee_nvti (snd res))
  end.

(** The descriptor fetched again after the parsed one was stored. *)
Definition refetched_nvti (folder name : string) (w : world) : option nvti_t :=
  match parsed_nvti folder name w with
  | Some d =>
      match nvti_oid d with
      | Some _ => cache_get name (cache_add d name (w_cache w))
      | None => None
      end
  | None => None
  end.

(** The [prefs_set] call made for preference [np] of descriptor [n], and
    the calls made for a list of its preferences, in order. *)
Definition merge_write (n : nvti_t) (np : nvtpref_t) : event :=
  EvPrefsSet (pref_key n np) (nvtpref_default np).

Definition merge_writes (n : nvti_t) (l : list nvtpref_t) : list event :=
  map (merge_write n) l.

(** The preferences after those calls. *)
Definition merge_prefs (n : nvti_t) (l : list nvtpref_t) (m : gmap string (option string))
    : gmap string (option string) :=
  foldl (fun m np => <[pref_key n np := nvtpref_default np]> m) m l.

(** What the code after the cache-miss block does with [nvti]: the code
    it returns, the events it leaves and the preferences afterwards. *)
Definition accept_code (nvti : option nvti_t) : Z :=
  match nvti with
  | Some n => match nvti_oid n with Some _ => 0 | None => -1 end
  | None => -1
  end.

Definition accept_events (name : string) (nvti : option nvti_t) : list event :=
  match nvti with
  | None => [EvDebug (LogFailedToLoad name)]
  | Some n =>
      match nvti_oid n with
      | None => [EvDebug (LogFailedToLoadNoOid name); EvNvtiFree n]
      | Some _ => merge_writes n (nvti_prefs n) ++ [EvNvtiFree n]
      end
  end.

Definition accept_prefs (nvti : option nvti_t) (m : gmap string (option string))
    : gmap string (option string) :=
  match nvti with
  | Some n => match nvti_oid n with Some _ => merge_prefs n (nvti_prefs n) m | None => m end
  | None => m
  end.

(** The process attributes at the time [nasl_thread] calls
    [drop_privileges]: those left by the [be_nice] block. *)
Definition proc_at_drop (w : world) : proc_t :=
  if bool_decide (w_prefs w !! "be_nice" = Some (Some "yes"))
  then w_proc (snd (nice (-5) (snd (set_errno 0 w))))
  else w_proc w.

(** The events of the [be_nice] block of [nasl_thread]. *)
Definition renice_events (w : world) : list event :=
  if bool_decide (w_prefs w !! "be_nice" = Some (Some "yes"))
  then EvNice (-5) ::
       (if negb (p_euid (w_proc w) =? 0) then [EvDebug (LogUnableToRenice EPERM)] else [])
  else [].

(** The code [drop_privileges] answers when [nasl_thread] calls it. *)
Definition drop_code (w : world) : Z := fst (privileges_drop (proc_at_drop w)).

(** The events of the [drop_privileges] block of [nasl_thread]. *)
Definition drop_events (name : string) (w : world) : list event :=
  if bool_decide (w_prefs w !! "drop_privileges" = Some (Some "yes"))
  then EvDropPrivileges ::
       (if drop_code w =? GVM_DROP_PRIVILEGES_OK then []
        else (if drop_code w =? GVM_DROP_PRIVILEGES_FAIL_NOT_ROOT then []
              else [EvDebug (LogFailedToDropPrivileges name)]) ++ [EvErrorFree])
  else [].

(** The argument list and the mode a launched worker hands to the
    interpreter. *)
Definition worker_args (globals : arglist) (hostinfo : host_info) (kb : kb_t)
    (soc : Z) : arglist :=
  arg_cell "HOSTNAME" (ARG_PTR_HOST hostinfo)
    (arg_cell "globals"
       (ARG_ARGLIST (arg_set_value globals "global_socket" (ARG_PTR_SIZE soc)))
       (arg_cell "key" (ARG_PTR_KB kb) arg_end)).

Definition worker_mode (w : world) : Z :=
  if bool_decide (w_prefs w !! "nasl_no_signature_check" = Some (Some "yes"))
  then Z.lor 0 NASL_ALWAYS_SIGNED else 0.

(** The completion marker. *)
Definition finished_marker (soc : Z) : event :=
  EvSend soc None (Z.lor INTERNAL_COMM_MSG_TYPE_CTRL INTERNAL_COMM_CTRL_FINISHED).

End Embedding.

Definition is_send (e : event) : bool :=
  match e with EvSend _ _ _ => true | _ => false end.

Definition is_prefs_set (e : event) : bool :=
  match e with EvPrefsSet _ _ => true | _ => false end.

Definition is_exec (e : event) : bool :=
  match e with EvExec _ _ _ _ => true | _ => false end.

Definition is_cache_add (e : event) : bool :=
  match e with EvCacheAdd _ _ => true | _ => false end.

(** Events the timestamp block can leave. *)
Definition is_timestamp_event (e : event) : bool :=
  match e with
  | EvStat _ | EvUtime _ _ _
  | EvDebug (LogTimestampFixed _) | EvDebug (LogTimestampNotFixed _) => true
  | _ => false
  end.

(** Events of the calls that stand inside the cache-miss block only. *)
Definition is_miss_only (e : event) : bool :=
  match e with
  | EvExec _ _ _ _ | EvStat _ | EvUtime _ _ _ | EvCacheAdd _ _ => true
  | _ => false
  end.

(** ** Concrete instances, for evaluation *)

Module Fixture.

(** Values of the constants on a Linux build. *)
Definition linux : Headers := {|
  PATH_MAX := 4096;
  NASL_EXEC_DESCR := 1;
  NASL_ALWAYS_SIGNED := 8;
  INTERNAL_COMM_MSG_TYPE_CTRL := 65536;
  INTERNAL_COMM_CTRL_FINISHED := 1;
  GVM_DROP_PRIVILEGES_OK := 0;
  GVM_DROP_PRIVILEGES_FAIL_NOT_ROOT := 1
|}.

(** A cache that hands back what was stored. *)
Definition plain_cache : NvtiCache := {|
  cache_t := gmap string nvti_t;
  cache_get name c := c !! name;
  cache_add n name c := <[name := n]> c
|}.

(** A cache that stores a canonical form: the display name chomped. *)
Definition chomping_cache : NvtiCache := {|
  cache_t := gmap string nvti_t;
  cache_get name c := c !! name;
  cache_add n name c :=
    <[name := mk_nvti (nvti_oid n) (GLib.g_strchomp_dup (nvti_name n)) (nvti_prefs n)]> c
|}.

Definition pref_a : nvtpref_t := mk_nvtpref (Some "Timeout  ") (Some "entry") (Some "5").
Definition pref_b : nvtpref_t := mk_nvtpref (Some "Timeout") (Some "entry") (Some "30").
Definition pref_c : nvtpref_t := mk_nvtpref (Some "User") (Some "entry") (Some "admin").

Definition good : nvti_t :=
  mk_nvti (Some "1.3.6.1.4.1.25623.1.0.1") (Some "Probe ") [pref_a; pref_c; pref_b].
Definition no_oid : nvti_t := mk_nvti None (Some "Probe") [pref_c].

(** An interpreter that describes [good.nasl] completely, stops before
    the identifier of [early.nasl], and fails on anything else; run as a
    worker it reports an internal error.  The privilege drop answers
    code [drop_code] and leaves the user id as it is. *)
Definition externals (drop_code : Z) : Externals := {|
  nasl_run args name oid mode :=
    if String.eqb name "/p/good.nasl" then (0, arg_set_value args "NVTI" (ARG_PTR_NVTI good))
    else if String.eqb name "/p/early.nasl" then (0, arg_set_value args "NVTI" (ARG_PTR_NVTI no_oid))
    else (-1, args);
  privileges_drop p := (drop_code, p_euid p);
  spawn_pid p := 4242
|}.

Definition files : gmap string file_times :=
  {[ "/p/good.nasl" := mk_file_times 900 2000 true;
     "/p/early.nasl" := mk_file_times 900 900 true ]}.

Definition root : proc_t := mk_proc 0 0.
Definition user : proc_t := mk_proc 0 1000.

Definition world0 (nc : NvtiCache) (c : @cache_t nc) (prefs : gmap string (option string))
    (p : proc_t) : @world nc :=
  mk_world prefs c files 1000 0 p 0 [].

(** Worlds of the loader: an empty cache, a cache that holds [good], and
    a cache that holds a descriptor without identifier. *)
Definition w_empty : @world plain_cache := world0 plain_cache ∅ ∅ root.
Definition w_cached : @world plain_cache :=
  world0 plain_cache {[ "good.nasl" := good ]} ∅ root.
Definition w_stale : @world plain_cache :=
  world0 plain_cache {[ "x.nasl" := no_oid ]} ∅ root.
Definition w_canon : @world chomping_cache := world0 chomping_cache ∅ ∅ root.

(** Worlds of the worker: both preferences set, as root and as a user. *)
Definition worker_prefs : gmap string (option string) :=
  {[ "be_nice" := Some "yes"; "drop_privileges" := Some "yes" ]}.
Definition w_root : @world plain_cache := world0 plain_cache ∅ worker_prefs root.
Definition w_user : @world plain_cache := world0 plain_cache ∅ worker_prefs user.

(** The privilege drop answers "unknown user" (2), "not root" (1). *)
Definition ext_ok : Externals := externals 0.
Definition ext_unknown_user : Externals := externals 2.
Definition ext_not_root : Externals := externals 1.

End Fixture.

(** ** Further vocabulary *)

Section TimestampBlock.

Context {hdr : Headers} {nc : NvtiCache} {ext : Externals}.

(** The [st_mtime] the timestamp block compares: the file's, or what the
    buffer held when [stat] found no file. *)
Definition seen_mtime (fullname : string) (w : world) : Z :=
  match w_files w !! fullname with
  | Some f => st_mtime f
  | None => w_stack w
  end.

(** The events of the timestamp block. *)
Definition timestamp_block_events (fullname : string) (w : world) : list event :=
  EvStat fullname ::
  (if seen_mtime fullname w >? w_time w - 1
   then [EvUtime fullname (w_time w - 1) (w_time w - 1);
         EvDebug (match w_files w !! fullname with
                  | Some f => if utime_permitted f then LogTimestampFixed fullname
                              else LogTimestampNotFixed fullname
                  | None => LogTimestampNotFixed fullname
                  end)]
   else []).

(** The files after the timestamp block. *)
Definition timestamp_block_files (fullname : string) (w : world) : gmap string file_times :=
  match w_files w !! fullname with
  | Some f =>
      if (st_mtime f >? w_time w - 1) && utime_permitted f
      then <[fullname := mk_file_times (w_time w - 1) (w_time w - 1) true]> (w_files w)
      else w_files w
  | None => w_files w
  end.

(** The events of the cache-miss block after the timestamp block, for
    a parsed descriptor [d]; [r] is what the lookup after the store
    returns. *)
Definition commit_events (name : string) (d : nvti_t) (r : option nvti_t) : list event :=
  match nvti_oid d with
  | None => [EvDebug (LogNotAddedToCache name); EvNvtiFree d] ++ accept_events name None
  | Some _ => [EvCacheAdd d name; EvCacheGet name; EvNvtiFree d] ++ accept_events name r
  end.

End TimestampBlock.

Module FixtureMore.

Import Fixture.

(** A cache whose store fails silently (a backend that is down): a
    lookup after a store finds nothing. *)
Definition deaf_cache : NvtiCache := {|
  cache_t := gmap string nvti_t;
  cache_get name c := c !! name;
  cache_add n name c := c
|}.

Definition w_deaf : @world deaf_cache := world0 deaf_cache ∅ ∅ root.

(** [old.nasl] was last modified before the time of the call, [now.nasl]
    in the very second of the call; [/p/gone.nasl] does not exist. *)
Definition more_files : gmap string file_times :=
  {[ "/p/old.nasl" := mk_file_times 900 900 true;
     "/p/now.nasl" := mk_file_times 900 1000 true ]}.

(** An interpreter that describes every script as [good]. *)
Definition ext_any : Externals := {|
  nasl_run args name oid mode := (0, arg_set_value args "NVTI" (ARG_PTR_NVTI good));
  privileges_drop p := (0, p_euid p);
  spawn_pid p := 4242
|}.

(** An interpreter that fails on every script; the fork fails too. *)
Definition ext_none : Externals := {|
  nasl_run args name oid mode := (-1, args);
  privileges_drop p := (0, p_euid p);
  spawn_pid p := -1
|}.

Definition w_more : @world plain_cache :=
  mk_world ∅ ∅ more_files 1000 0 root 0 [].

(** Worlds of the worker: no preference set; [be_nice] set for a
    privileged process at nice value 4. *)
Definition w_quiet : @world plain_cache := world0 plain_cache ∅ ∅ user.

(** Two preferences whose names differ in trailing whitespace only. *)
Definition twins : nvti_t := mk_nvti (Some "1.2.3") (Some "Twin") [pref_b; pref_a].

(** A blank, a tab and a line feed; a preference named "Timeout" followed
    by them; a descriptor that declares it after "Timeout". *)
Definition blank_tab_lf : string :=
  String " " (String "009" (String "010" EmptyString)).
Definition pref_d : nvtpref_t :=
  mk_nvtpref (Some ("Timeout" +:+ blank_tab_lf)) (Some "entry") (Some "60").
Definition twins_d : nvti_t := mk_nvti (Some "1.2.3") (Some "Twin") [pref_b; pref_d].

(** A descriptor with an identifier and no name. *)
Definition nameless : nvti_t := mk_nvti (Some "1.2.4") None [pref_c].

End FixtureMore.

(** * Properties *)

(** ** Facts about [g_strchomp] *)

Module GLibFacts.
Import GLib.

(** The input is the result followed by whitespace only. *)
Lemma g_strchomp_split (s : string) :
  exists ws, s = g_strchomp s +:+ ws /\ all_space ws = true.
Proof.
  induction s as [|c r [ws [Hr Hws]]]; simpl.
  - exists EmptyString. done.
  - destruct (g_strchomp r) as [|c' r'] eqn:E.
    + destruct (g_ascii_isspace c) eqn:Hc.
      * exists (String c ws). simpl in *. rewrite Hc, Hws. by rewrite Hr at 1.
      * exists ws. simpl in *. split; [by rewrite Hr at 1 | done].
    + exists ws. split; [|done]. simpl in *. by rewrite Hr at 1.
Qed.

(** The result does not end in whitespace. *)
Lemma g_strchomp_last (s : string) (c : ascii) :
  last_char (g_strchomp s) = Some c -> g_ascii_isspace c = false.
Proof.
  induction s as [|a r IH]; simpl; [done|].
  destruct (g_strchomp r) as [|c' r'] eqn:E.
  - destruct (g_ascii_isspace a) eqn:Ha; simpl; [done|]. congruence.
  - simpl. simpl in IH. exact IH.
Qed.

(** A string that does not end in whitespace is left as it is. *)
Lemma g_strchomp_fixed (s : string) :
  (forall c, last_char s = Some c -> g_ascii_isspace c = false) -> g_strchomp s = s.
Proof.
  induction s as [|a r IH]; simpl; [done|].
  intros H. destruct r as [|b r'].
  - simpl. by rewrite (H a eq_refl).
  - rewrite IH by exact H. done.
Qed.

(** [g_ascii_isspace] holds of the five characters of [space_chars] and
    of no other. *)
Lemma g_ascii_isspace_spec (c : ascii) :
  g_ascii_isspace c = true <-> c ∈ space_chars.
Proof.
  assert (H : g_ascii_isspace c = bool_decide (c ∈ space_chars)).
  { destruct c as [[] [] [] [] [] [] [] []]; vm_compute; reflexivity. }
  rewrite H. apply bool_decide_eq_true.
Qed.

Lemma all_space_spec (ws : string) :
  all_space ws = true <-> Forall (fun c => c ∈ space_chars) (list_ascii_of_string ws).
Proof.
  induction ws as [|c r IH]; simpl.
  - split; [constructor | done].
  - rewrite andb_true_iff, IH, g_ascii_isspace_spec. split.
    + intros [Hc Hr]. by constructor.
    + intros H. inversion H; subst. done.
Qed.

End GLibFacts.

Section Properties.

Context {hdr : Headers} {nc : NvtiCache} {ext : Externals}.

#[local] Arguments prefs_add_nvti : simpl never.
#[local] Arguments fix_future_mtime : simpl never.

(** Symbolic execution: unfold the calls and let the record projections
    reduce. *)
Ltac run :=
  repeat (progress (unfold bind, ret, emit, g_debug, time, uninitialised_mtime, stat, utime,
                    nvti_free, prefs_get_bool, prefs_set, nvticache_get, nvticache_add,
                    nvticache_reset, exec_nasl_script, set_errno, errno, drop_privileges,
                    g_error_free, pluginlaunch_child_cleanup, kb_lnk_reset, proctitle_set,
                    internal_send; simpl)).

(** Membership in an explicit list of events, decided by walking it. *)
Ltac walk H :=
  repeat (apply elem_of_cons in H as [->|H]; [try done|]);
  try (by apply elem_of_nil in H).

(** The same for one given event that the list does not hold. *)
Ltac refute H :=
  repeat (apply elem_of_cons in H as [?|H]; [done|]);
  by apply elem_of_nil in H.

Lemma events_of_app {A} (m : M A) (w : world) (evs : list event) :
  w_trace (snd (m w)) = w_trace w ++ evs -> events_of m w = evs.
Proof. unfold events_of. intros ->. apply drop_app_length. Qed.

(** *** The preference loop *)

Lemma prefs_add_nvti_from_run (n : nvti_t) (todo : nat) (i : nat) (w : world) :
  (i + todo)%nat = nvti_pref_len n ->
  prefs_add_nvti_from n i todo w =
    (tt, with_trace (w_trace w ++ merge_writes n (drop i (nvti_prefs n)))
           (with_prefs (merge_prefs n (drop i (nvti_prefs n)) (w_prefs w)) w)).
Proof.
  revert i w. induction todo as [|todo IH]; intros i w Hlen.
  - simpl. unfold ret, nvti_pref_len in *. rewrite drop_ge by lia.
    simpl. rewrite app_nil_r. by destruct w.
  - simpl. unfold nvti_pref, nvti_pref_len in *.
    destruct (nvti_prefs n !! i) as [np|] eqn:E.
    + unfold bind at 1. unfold prefs_set, bind, emit. simpl.
      rewrite IH by lia. simpl.
      rewrite (drop_S _ _ _ E). simpl.
      rewrite <- app_assoc. done.
    + apply lookup_ge_None in E. lia.
Qed.

Lemma prefs_add_nvti_run (n : nvti_t) (w : world) :
  prefs_add_nvti (Some n) w =
    (tt, with_trace (w_trace w ++ merge_writes n (nvti_prefs n))
           (with_prefs (merge_prefs n (nvti_prefs n) (w_prefs w)) w)).
Proof. unfold prefs_add_nvti. by rewrite prefs_add_nvti_from_run. Qed.

Lemma merge_prefs_lookup_ne (n : nvti_t) (l : list nvtpref_t) (m : gmap string (option string))
    (k : string) :
  (forall np, np ∈ l -> pref_key n np <> k) ->
  merge_prefs n l m !! k = m !! k.
Proof.
  revert m. induction l as [|np l IH]; intros m Hne; simpl; [done|].
  rewrite IH.
  - apply lookup_insert_ne. apply Hne. left.
  - intros np' Hin. apply Hne. by right.
Qed.

Lemma merge_prefs_last (n : nvti_t) (before after : list nvtpref_t) (np : nvtpref_t)
    (m : gmap string (option string)) :
  (forall np', np' ∈ after -> pref_key n np' <> pref_key n np) ->
  merge_prefs n (before ++ np :: after) m !! pref_key n np = Some (nvtpref_default np).
Proof.
  intros Hne. unfold merge_prefs. rewrite foldl_app. simpl.
  change (merge_prefs n after (<[pref_key n np:=nvtpref_default np]> (merge_prefs n before m))
            !! pref_key n np = Some (nvtpref_default np)).
  rewrite merge_prefs_lookup_ne by done. apply lookup_insert_eq.
Qed.

Lemma merge_writes_all_prefs_set (n : nvti_t) (l : list nvtpref_t) :
  List.filter is_prefs_set (merge_writes n l) = merge_writes n l.
Proof. induction l as [|np l IH]; simpl; [done|]. by rewrite IH. Qed.

(** C4.  Merging descriptor [n] makes one [prefs_set] call per declared
    preference, in declaration order, duplicates included; the key is the
    descriptor's name, the type in brackets, a colon and the preference's
    name without its trailing whitespace (blank, tab, line feed, form feed,
    carriage return), each printed as "(null)" when the pointer is NULL,
    and the value is the preference's default.  In the resulting
    preferences a key holds the default of the last preference that
    produced it, and keys no preference produced are as before. *)
Theorem prefs_add_nvti_merges_in_order (n : nvti_t) (w : world) :
  events_of (prefs_add_nvti (Some n)) w =
    map (fun np => EvPrefsSet
                     (GLib.printf_s (nvti_name n) +:+ "[" +:+
                      GLib.printf_s (nvtpref_type np) +:+ "]:" +:+
                      GLib.printf_s (GLib.g_strchomp_dup (nvtpref_name np)))
                     (nvtpref_default np))
        (nvti_prefs n)
  /\ (forall np nm ty pn,
        nvti_name n = Some nm -> nvtpref_type np = Some ty -> nvtpref_name np = Some pn ->
        pref_key n np = nm +:+ "[" +:+ ty +:+ "]:" +:+ GLib.g_strchomp pn)
  /\ (GLib.printf_s None = "(null)" /\ GLib.g_strchomp_dup None = None)
  /\ (forall pn, exists ws,
        pn = GLib.g_strchomp pn +:+ ws
        /\ Forall (fun c => c ∈ [" "; "009"; "010"; "012"; "013"]%char)
                  (list_ascii_of_string ws)
        /\ forall c, GLib.last_char (GLib.g_strchomp pn) = Some c ->
                     c ∉ [" "; "009"; "010"; "012"; "013"]%char)
  /\ w_prefs (snd (prefs_add_nvti (Some n) w)) =
       foldl (fun m np => <[pref_key n np := nvtpref_default np]> m) (w_prefs w) (nvti_prefs n)
  /\ (forall before np after,
        nvti_prefs n = before ++ np :: after ->
        (forall np', np' ∈ after -> pref_key n np' <> pref_key n np) ->
        w_prefs (snd (prefs_add_nvti (Some n) w)) !! pref_key n np = Some (nvtpref_default np))
  /\ (forall k,
        (forall np, np ∈ nvti_prefs n -> pref_key n np <> k) ->
        w_prefs (snd (prefs_add_nvti (Some n) w)) !! k = w_prefs w !! k).
Proof.
  rewrite (events_of_app _ _ (merge_writes n (nvti_prefs n)))
    by (by rewrite prefs_add_nvti_run).
  rewrite prefs_add_nvti_run. simpl.
  split; [reflexivity|]. split.
  { intros np nm ty pn Hnm Hty Hpn. unfold pref_key. by rewrite Hnm, Hty, Hpn. }
  split; [done|]. split.
  { intros pn. destruct (GLibFacts.g_strchomp_split pn) as [ws [Hs Hws]].
    exists ws. split; [exact Hs|]. split.
    - by apply GLibFacts.all_space_spec.
    - intros c Hc Hin. apply GLibFacts.g_ascii_isspace_spec in Hin.
      by rewrite (GLibFacts.g_strchomp_last pn c Hc) in Hin. }
  split; [reflexivity|]. split.
  - intros before np after Hl Hne. rewrite Hl. by apply merge_prefs_last.
  - intros k Hne. by apply merge_prefs_lookup_ne.
Qed.

(** *** The timestamp block *)

(** What the block leaves alone, and the kind of events it appends. *)
Lemma fix_future_mtime_frame (fullname : string) (w : world) :
  w_prefs (snd (fix_future_mtime fullname w)) = w_prefs w /\
  w_cache (snd (fix_future_mtime fullname w)) = w_cache w /\
  exists evs, w_trace (snd (fix_future_mtime fullname w)) = w_trace w ++ evs /\
              forall e, e ∈ evs -> is_timestamp_event e = true.
Proof.
  unfold fix_future_mtime. run.
  destruct (w_files w !! fullname) as [f|] eqn:Hf; simpl;
    repeat (case_match; simpl); simplify_eq;
    repeat split; try done;
    eexists; (split; [simpl; rewrite <- ?app_assoc; reflexivity|]);
    intros e He; walk He.
Qed.

(** The block on a file that exists and whose modification time lies
    after [now]. *)
Lemma fix_future_mtime_future (fullname : string) (w : world) (f : file_times) :
  w_files w !! fullname = Some f ->
  w_time w - 1 < st_mtime f ->
  fix_future_mtime fullname w =
    if utime_permitted f
    then (tt, with_trace (w_trace w ++ [EvStat fullname;
                                        EvUtime fullname (w_time w - 1) (w_time w - 1);
                                        EvDebug (LogTimestampFixed fullname)])
                (with_files (<[fullname := mk_file_times (w_time w - 1) (w_time w - 1) true]>
                               (w_files w)) w))
    else (tt, with_trace (w_trace w ++ [EvStat fullname;
                                        EvUtime fullname (w_time w - 1) (w_time w - 1);
                                        EvDebug (LogTimestampNotFixed fullname)]) w).
Proof.
  intros Hf Hlt. apply Z.gtb_lt in Hlt.
  unfold fix_future_mtime. run. rewrite Hf. simpl. rewrite Hlt. run. rewrite Hf.
  destruct (utime_permitted f); simpl; rewrite <- !app_assoc; done.
Qed.

(** *** The three ways through [nasl_plugin_add] *)

Lemma nasl_plugin_add_hit (folder name : string) (w : world) (d : nvti_t) :
  fetched_nvti name w = Some d ->
  nasl_plugin_add folder name w =
    (accept_code (Some d),
     with_trace (w_trace w ++ EvCacheGet name :: accept_events name (Some d))
       (with_prefs (accept_prefs (Some d) (w_prefs w)) w)).
Proof.
  unfold fetched_nvti. intros Hget.
  unfold nasl_plugin_add. run. rewrite Hget. run.
  destruct (nvti_oid d) eqn:Hoid; run.
  - rewrite prefs_add_nvti_run. run. rewrite <- !app_assoc. done.
  - rewrite <- !app_assoc. by destruct w.
Qed.

Lemma nasl_plugin_add_failed (folder name : string) (w : world) :
  fetched_nvti name w = None ->
  fst (descr_run folder name w) < 0 ->
  nasl_plugin_add folder name w =
    (-1, with_trace (w_trace w ++
                     [EvCacheGet name;
                      EvExec descr_args (snprintf_fullname folder name) None (descr_mode w);
                      EvDebug (LogCouldNotBeLoaded (snprintf_fullname folder name));
                      EvArgFree]) w).
Proof.
  unfold fetched_nvti, descr_run, descr_mode, descr_args. intros Hget Hneg.
  apply Z.ltb_lt in Hneg. simpl in Hneg.
  unfold nasl_plugin_add. run. rewrite Hget. run.
  rewrite Hneg. run. rewrite <- !app_assoc. done.
Qed.

Lemma nasl_plugin_add_parsed (folder name : string) (w : world) (d : nvti_t) :
  parsed_nvti folder name w = Some d ->
  nasl_plugin_add folder name w =
    let w2 := world_after_parse folder name w in
    match nvti_oid d with
    | None =>
        (-1, with_trace (w_trace w2 ++ [EvDebug (LogNotAddedToCache name); EvNvtiFree d]
                                    ++ accept_events name None) w2)
    | Some _ =>
        let r := cache_get name (cache_add d name (w_cache w2)) in
        (accept_code r,
         with_trace (w_trace w2 ++ [EvCacheAdd d name; EvCacheGet name; EvNvtiFree d]
                                ++ accept_events name r)
           (with_prefs (accept_prefs r (w_prefs w2))
              (with_cache (cache_add d name (w_cache w2)) w2)))
    end.
Proof.
  unfold parsed_nvti, fetched_nvti, descr_run, descr_mode, descr_args, world_after_parse.
  destruct (cache_get name (w_cache w)) eqn:Hget; [done|].
  destruct (fst (nasl_run _ _ _ _) <? 0) eqn:Hneg; [done|]. intros [= Hd].
  simpl in Hneg, Hd.
  unfold nasl_plugin_add. run. rewrite Hget. run. rewrite Hneg. run. rewrite Hd.
  rewrite <- !app_assoc. simpl.
  destruct (fix_future_mtime _ _) as [[] w2] eqn:Hfix. simpl.
  destruct (nvti_oid d) eqn:Hoid; run.
  - destruct (cache_get name (cache_add d name (w_cache w2))) as [n|] eqn:Hre; run.
    + destruct (nvti_oid n) eqn:Hoidn; run.
      * rewrite prefs_add_nvti_run. run. rewrite <- !app_assoc. done.
      * rewrite <- !app_assoc. done.
    + rewrite <- !app_assoc. done.
  - rewrite <- !app_assoc. by destruct w2.
Qed.

(** Every call takes one of the three ways. *)
Lemma nasl_plugin_add_cases (folder name : string) (w : world) :
  (exists d, fetched_nvti name w = Some d) \/
  (fetched_nvti name w = None /\ fst (descr_run folder name w) < 0) \/
  (exists d, parsed_nvti folder name w = Some d).
Proof.
  unfold parsed_nvti. destruct (fetched_nvti name w) as [d|] eqn:Hget; [left; by exists d|].
  right. destruct (fst (descr_run folder name w) <? 0) eqn:Hneg.
  - left. split; [done|]. by apply Z.ltb_lt.
  - right. by eexists.
Qed.

(** The world after the timestamp block differs from the starting one in
    the trace and, possibly, in the file's timestamps. *)
Lemma world_after_parse_frame (folder name : string) (w : world) :
  w_prefs (world_after_parse folder name w) = w_prefs w /\
  w_cache (world_after_parse folder name w) = w_cache w /\
  exists tev,
    w_trace (world_after_parse folder name w) =
      w_trace w ++ [EvCacheGet name;
                    EvExec descr_args (snprintf_fullname folder name) None (descr_mode w);
                    EvArgFree] ++ tev /\
    forall e, e ∈ tev -> is_timestamp_event e = true.
Proof.
  unfold world_after_parse.
  destruct (fix_future_mtime_frame (snprintf_fullname folder name)
              (with_trace (w_trace w ++ [EvCacheGet name;
                 EvExec descr_args (snprintf_fullname folder name) None (descr_mode w);
                 EvArgFree]) w)) as (Hprefs & Hcache & tev & Htr & Htev).
  cbv zeta. rewrite Hprefs, Hcache, Htr. simpl.
  repeat split. exists tev. rewrite <- app_assoc. done.
Qed.

#[local] Arguments world_after_parse : simpl never.

(** The parse way, seen from the world the call started in. *)
Lemma nasl_plugin_add_parsed_view (folder name : string) (w : world) (d : nvti_t) :
  parsed_nvti folder name w = Some d ->
  exists tev,
    (forall e, e ∈ tev -> is_timestamp_event e = true) /\
    events_of (nasl_plugin_add folder name) w =
      [EvCacheGet name;
       EvExec descr_args (snprintf_fullname folder name) None (descr_mode w);
       EvArgFree] ++ tev ++
      match nvti_oid d with
      | None => [EvDebug (LogNotAddedToCache name); EvNvtiFree d] ++ accept_events name None
      | Some _ => [EvCacheAdd d name; EvCacheGet name; EvNvtiFree d]
                    ++ accept_events name (cache_get name (cache_add d name (w_cache w)))
      end /\
    fst (nasl_plugin_add folder name w) =
      match nvti_oid d with
      | None => -1
      | Some _ => accept_code (cache_get name (cache_add d name (w_cache w)))
      end /\
    w_prefs (snd (nasl_plugin_add folder name w)) =
      match nvti_oid d with
      | None => w_prefs w
      | Some _ => accept_prefs (cache_get name (cache_add d name (w_cache w))) (w_prefs w)
      end /\
    w_cache (snd (nasl_plugin_add folder name w)) =
      match nvti_oid d with
      | None => w_cache w
      | Some _ => cache_add d name (w_cache w)
      end /\
    w_files (snd (nasl_plugin_add folder name w)) = w_files (world_after_parse folder name w).
Proof.
  intros Hp.
  destruct (world_after_parse_frame folder name w) as (Hprefs & Hcache & tev & Htr & Htev).
  exists tev. split; [exact Htev|].
  unfold events_of.
  rewrite (nasl_plugin_add_parsed _ _ _ _ Hp). cbv zeta.
  destruct (nvti_oid d) eqn:Hoid; rewrite ?Hcache, ?Hprefs; simpl;
    rewrite Htr, <- !app_assoc, drop_app_length; done.
Qed.

(** Walks an explicit list to the event looked for. *)
Ltac find_event :=
  repeat first [apply list_elem_of_here | apply list_elem_of_further
               | (apply elem_of_app; right)].

Lemma merge_writes_elem (n : nvti_t) (l : list nvtpref_t) (e : event) :
  e ∈ merge_writes n l -> exists k v, e = EvPrefsSet k v.
Proof.
  unfold merge_writes. intros (np & -> & _)%list_elem_of_fmap. by eexists _, _.
Qed.

(** The code after the cache-miss block neither runs the interpreter, nor
    looks at the file, nor stores into the cache. *)
Lemma accept_events_kinds (name : string) (r : option nvti_t) (e : event) :
  e ∈ accept_events name r ->
  is_miss_only e = false /\ is_exec e = false /\ is_cache_add e = false /\
  is_timestamp_event e = false.
Proof.
  unfold accept_events. destruct r as [n|]; [destruct (nvti_oid n)|]; intros He.
  - apply elem_of_app in He as [He|He].
    + by destruct (merge_writes_elem _ _ _ He) as (k & v & ->).
    + walk He.
  - walk He.
  - walk He.
Qed.

Lemma accept_events_writes (name : string) (r : option nvti_t) :
  List.filter is_prefs_set (accept_events name r) =
    match r with
    | Some n => match nvti_oid n with Some _ => merge_writes n (nvti_prefs n) | None => [] end
    | None => []
    end.
Proof.
  unfold accept_events. destruct r as [n|]; [destruct (nvti_oid n)|]; try done.
  rewrite List.filter_app, merge_writes_all_prefs_set. simpl. by rewrite app_nil_r.
Qed.

Lemma timestamp_events_no_writes (tev : list event) :
  (forall e, e ∈ tev -> is_timestamp_event e = true) ->
  List.filter is_prefs_set tev = [].
Proof.
  induction tev as [|e tev IH]; intros H; simpl; [done|].
  rewrite IH by (intros e' He'; apply H; by right).
  specialize (H e (list_elem_of_here _ _)). by destruct e.
Qed.

(** The hit way, seen from the world the call started in. *)
Lemma nasl_plugin_add_hit_view (folder name : string) (w : world) (d : nvti_t) :
  fetched_nvti name w = Some d ->
  events_of (nasl_plugin_add folder name) w = EvCacheGet name :: accept_events name (Some d) /\
  fst (nasl_plugin_add folder name w) = accept_code (Some d) /\
  w_prefs (snd (nasl_plugin_add folder name w)) = accept_prefs (Some d) (w_prefs w) /\
  w_cache (snd (nasl_plugin_add folder name w)) = w_cache w /\
  w_files (snd (nasl_plugin_add folder name w)) = w_files w.
Proof.
  intros Hget. unfold events_of. rewrite (nasl_plugin_add_hit _ _ _ _ Hget). simpl.
  by rewrite drop_app_length.
Qed.

Lemma nasl_plugin_add_interpreter_failure_events (folder name : string) (w : world) :
  fetched_nvti name w = None ->
  fst (descr_run folder name w) < 0 ->
  events_of (nasl_plugin_add folder name) w =
    [EvCacheGet name;
     EvExec descr_args (snprintf_fullname folder name) None (descr_mode w);
     EvDebug (LogCouldNotBeLoaded (snprintf_fullname folder name));
     EvArgFree].
Proof.
  intros Hget Hneg. unfold events_of.
  rewrite (nasl_plugin_add_failed _ _ _ Hget Hneg). simpl.
  by rewrite drop_app_length.
Qed.

(** ** The claims about [nasl_plugin_add] *)

(** C6.  On a cache miss, when the interpreter's run reports a failure
    (a negative status), the call returns -1 and leaves the cache, the
    files with their timestamps and the preferences as they were; apart
    from the lookup and the run it only logs and releases the argument
    list: the fresh descriptor is not used again, and nothing is stored in
    the cache. *)
Theorem nasl_plugin_add_interpreter_failure (folder name : string) (w : world) :
  fetched_nvti name w = None ->
  fst (descr_run folder name w) < 0 ->
  fst (nasl_plugin_add folder name w) = -1 /\
  w_cache (snd (nasl_plugin_add folder name w)) = w_cache w /\
  w_files (snd (nasl_plugin_add folder name w)) = w_files w /\
  w_prefs (snd (nasl_plugin_add folder name w)) = w_prefs w /\
  events_of (nasl_plugin_add folder name) w =
    [EvCacheGet name;
     EvExec descr_args (snprintf_fullname folder name) None (descr_mode w);
     EvDebug (LogCouldNotBeLoaded (snprintf_fullname folder name));
     EvArgFree].
Proof.
  intros Hget Hneg. unfold events_of.
  rewrite (nasl_plugin_add_failed _ _ _ Hget Hneg). simpl.
  by rewrite drop_app_length.
Qed.

(** C10.  When the cache lookup finds the name, the call leaves the cache
    and the files as they were, and none of its events is an interpreter
    run, a [stat], a [utime] or a store into the cache. *)
Theorem nasl_plugin_add_hit_leaves_cache_and_files (folder name : string) (w : world)
    (d : nvti_t) :
  fetched_nvti name w = Some d ->
  w_cache (snd (nasl_plugin_add folder name w)) = w_cache w /\
  w_files (snd (nasl_plugin_add folder name w)) = w_files w /\
  forall e, e ∈ events_of (nasl_plugin_add folder name) w -> is_miss_only e = false.
Proof.
  intros Hget.
  destruct (nasl_plugin_add_hit_view folder name w d Hget) as (Hev & _ & _ & Hc & Hf).
  split; [exact Hc|]. split; [exact Hf|].
  rewrite Hev. intros e [->|He]%elem_of_cons; [done|].
  by apply accept_events_kinds in He as (? & _).
Qed.

(** The same fact read the other way: an interpreter run, a [stat], a
    [utime] or a store into the cache among the events of a call means
    that the lookup found nothing. *)
Corollary miss_only_events_need_a_miss (folder name : string) (w : world) (e : event) :
  e ∈ events_of (nasl_plugin_add folder name) w ->
  is_miss_only e = true ->
  fetched_nvti name w = None.
Proof.
  intros He Hm. destruct (fetched_nvti name w) as [d|] eqn:Hget; [|done].
  destruct (nasl_plugin_add_hit_view folder name w d Hget) as (Hev & _).
  rewrite Hev in He. apply elem_of_cons in He as [->|He]; [done|].
  apply accept_events_kinds in He as (? & _). congruence.
Qed.

(** A successful load leaves a descriptor with an identifier in the
    cache under the name. *)
Lemma nasl_plugin_add_success_cached (folder name : string) (w : world) :
  fst (nasl_plugin_add folder name w) = 0 ->
  exists d o, fetched_nvti name (snd (nasl_plugin_add folder name w)) = Some d /\
              nvti_oid d = Some o.
Proof.
  intros Hok. unfold fetched_nvti.
  destruct (nasl_plugin_add_cases folder name w) as [[d Hget]|[[Hget Hneg]|[d Hp]]].
  - destruct (nasl_plugin_add_hit_view folder name w d Hget) as (_ & Hr & _ & Hc & _).
    rewrite Hc. exists d. rewrite Hr in Hok. simpl in Hok.
    destruct (nvti_oid d) as [o|]; [by exists o | done].
  - rewrite (nasl_plugin_add_failed _ _ _ Hget Hneg) in Hok. done.
  - destruct (nasl_plugin_add_parsed_view folder name w d Hp) as (tev & _ & _ & Hr & _ & Hc & _).
    rewrite Hr in Hok. rewrite Hc. destruct (nvti_oid d); [|done].
    destruct (cache_get name (cache_add d name (w_cache w))) as [n|]; [|done].
    exists n. simpl in Hok. destruct (nvti_oid n) as [o|]; [by exists o | done].
Qed.

Lemma timestamp_event_kinds (e : event) :
  is_timestamp_event e = true ->
  is_prefs_set e = false /\ is_cache_add e = false /\ (forall n, e <> EvNvtiFree n).
Proof. destruct e; try done. Qed.

(** No call stores a descriptor without identifier into the cache. *)
Lemma nasl_plugin_add_never_commits_null_oid (folder name : string) (w : world)
    (d : nvti_t) (nm : string) :
  nvti_oid d = None ->
  EvCacheAdd d nm ∉ events_of (nasl_plugin_add folder name) w.
Proof.
  intros Hnull Hin.
  destruct (nasl_plugin_add_cases folder name w) as [[d0 Hget]|[[Hget Hneg]|[d0 Hp]]].
  - destruct (nasl_plugin_add_hit_view folder name w d0 Hget) as (Hev & _).
    rewrite Hev in Hin. apply elem_of_cons in Hin as [?|Hin]; [done|].
    by apply accept_events_kinds in Hin as (_ & _ & ? & _).
  - pose proof (nasl_plugin_add_interpreter_failure_events folder name w Hget Hneg) as Hev.
    rewrite Hev in Hin. refute Hin.
  - destruct (nasl_plugin_add_parsed_view folder name w d0 Hp) as (tev & Htev & Hev & _).
    rewrite Hev in Hin.
    apply elem_of_app in Hin as [Hin|Hin]; [refute Hin|].
    apply elem_of_app in Hin as [Hin|Hin].
    { by apply Htev in Hin. }
    destruct (nvti_oid d0) eqn:Hoid0.
    + apply elem_of_app in Hin as [Hin|Hin].
      * apply elem_of_cons in Hin as [[= -> _]|Hin]; [congruence|]. refute Hin.
      * by apply accept_events_kinds in Hin as (_ & _ & ? & _).
    + apply elem_of_app in Hin as [Hin|Hin]; refute Hin.
Qed.

(** C2.  A descriptor without identifier is never stored into the cache by
    a call; and when it is what the cache lookup returned, what the
    interpreter's run produced, or what the lookup after the store
    returned, the call releases it, makes no [prefs_set] call, leaves the
    preferences as they were and returns -1. *)
Theorem nasl_plugin_add_rejects_null_oid (folder name : string) (w : world) (d : nvti_t) :
  nvti_oid d = None ->
  (forall nm, EvCacheAdd d nm ∉ events_of (nasl_plugin_add folder name) w) /\
  (fetched_nvti name w = Some d \/ parsed_nvti folder name w = Some d \/
   refetched_nvti folder name w = Some d ->
   fst (nasl_plugin_add folder name w) = -1 /\
   EvNvtiFree d ∈ events_of (nasl_plugin_add folder name) w /\
   (forall e, e ∈ events_of (nasl_plugin_add folder name) w -> is_prefs_set e = false) /\
   w_prefs (snd (nasl_plugin_add folder name w)) = w_prefs w).
Proof.
  intros Hnull. split.
  { intros nm. by apply nasl_plugin_add_never_commits_null_oid. }
  intros [Hget|[Hp|Hre]].
  - destruct (nasl_plugin_add_hit_view folder name w d Hget) as (Hev & Hr & Hprefs & _).
    rewrite Hev, Hr, Hprefs. simpl. rewrite Hnull.
    repeat split; try done; [find_event|]. intros e He. walk He.
  - destruct (nasl_plugin_add_parsed_view folder name w d Hp)
      as (tev & Htev & Hev & Hr & Hprefs & _).
    rewrite Hev, Hr, Hprefs, Hnull. unfold accept_events.
    repeat split; try done.
    + find_event.
    + intros e He.
      apply elem_of_app in He as [He|He]; [walk He|].
      apply elem_of_app in He as [He|He].
      * by apply Htev, timestamp_event_kinds in He as (? & _).
      * apply elem_of_app in He as [He|He]; walk He.
  - unfold refetched_nvti in Hre.
    destruct (parsed_nvti folder name w) as [d0|] eqn:Hp; [|done].
    destruct (nvti_oid d0) eqn:Hoid0; [|done].
    destruct (nasl_plugin_add_parsed_view folder name w d0 Hp)
      as (tev & Htev & Hev & Hr & Hprefs & _).
    rewrite Hev, Hr, Hprefs, Hoid0, Hre. unfold accept_code, accept_events, accept_prefs.
    rewrite Hnull.
    repeat split; try done.
    + find_event.
    + intros e He.
      apply elem_of_app in He as [He|He]; [walk He|].
      apply elem_of_app in He as [He|He].
      * by apply Htev, timestamp_event_kinds in He as (? & _).
      * apply elem_of_app in He as [He|He]; walk He.
Qed.

(** C9.  On a cache miss with a parsed descriptor that has an identifier,
    the call stores that descriptor into the cache under the name and
    looks the name up again right after; the [prefs_set] calls, the
    preferences and the returned code are those of the descriptor this
    second lookup returns. *)
Theorem nasl_plugin_add_commits_then_refetches (folder name : string) (w : world)
    (d : nvti_t) (o : string) :
  parsed_nvti folder name w = Some d ->
  nvti_oid d = Some o ->
  refetched_nvti folder name w = cache_get name (cache_add d name (w_cache w)) /\
  w_cache (snd (nasl_plugin_add folder name w)) = cache_add d name (w_cache w) /\
  (exists pre post,
      events_of (nasl_plugin_add folder name) w =
        pre ++ [EvCacheAdd d name; EvCacheGet name] ++ post /\
      (forall e, e ∈ pre ++ post -> is_cache_add e = false)) /\
  List.filter is_prefs_set (events_of (nasl_plugin_add folder name) w) =
    match refetched_nvti folder name w with
    | Some n => match nvti_oid n with Some _ => merge_writes n (nvti_prefs n) | None => [] end
    | None => []
    end /\
  w_prefs (snd (nasl_plugin_add folder name w)) =
    accept_prefs (refetched_nvti folder name w) (w_prefs w) /\
  fst (nasl_plugin_add folder name w) = accept_code (refetched_nvti folder name w).
Proof.
  intros Hp Hoid.
  assert (Hre : refetched_nvti folder name w = cache_get name (cache_add d name (w_cache w)))
    by (unfold refetched_nvti; by rewrite Hp, Hoid).
  destruct (nasl_plugin_add_parsed_view folder name w d Hp)
    as (tev & Htev & Hev & Hr & Hprefs & Hc & _).
  rewrite Hoid in Hev, Hr, Hprefs, Hc. rewrite <- Hre in Hev, Hr, Hprefs.
  split; [exact Hre|]. split; [exact Hc|]. split; [|split; [|by split]].
  - exists ([EvCacheGet name;
             EvExec descr_args (snprintf_fullname folder name) None (descr_mode w);
             EvArgFree] ++ tev),
           (EvNvtiFree d :: accept_events name (refetched_nvti folder name w)).
    split; [rewrite Hev, <- !app_assoc; done|].
    intros e He.
    apply elem_of_app in He as [He|He].
    + apply elem_of_app in He as [He|He]; [walk He|].
      by apply Htev, timestamp_event_kinds in He as (_ & ? & _).
    + apply elem_of_cons in He as [->|He]; [done|].
      by apply accept_events_kinds in He as (_ & _ & ? & _).
  - rewrite Hev, !List.filter_app, (timestamp_events_no_writes tev Htev), accept_events_writes.
    done.
Qed.

(** The world after the timestamp block, for a file that exists and whose
    modification time lies after the time of the call. *)
Lemma world_after_parse_future (folder name : string) (w : world) (f : file_times) :
  w_files w !! snprintf_fullname folder name = Some f ->
  w_time w < st_mtime f ->
  world_after_parse folder name w =
    let fullname := snprintf_fullname folder name in
    let evs := [EvCacheGet name; EvExec descr_args fullname None (descr_mode w); EvArgFree;
                EvStat fullname; EvUtime fullname (w_time w - 1) (w_time w - 1)] in
    if utime_permitted f
    then with_trace (w_trace w ++ evs ++ [EvDebug (LogTimestampFixed fullname)])
           (with_files (<[fullname := mk_file_times (w_time w - 1) (w_time w - 1) true]>
                          (w_files w)) w)
    else with_trace (w_trace w ++ evs ++ [EvDebug (LogTimestampNotFixed fullname)]) w.
Proof.
  intros Hf Hlt. unfold world_after_parse. cbv zeta.
  rewrite (fix_future_mtime_future _ _ f) by (simpl; first [exact Hf | lia]).
  destruct (utime_permitted f); simpl; rewrite <- !app_assoc; done.
Qed.

(** C5.  On a cache miss with a successful parse, when the file's
    modification time lies after the time of the call, the call asks
    [utime] to set both timestamps to that time less one second.  When the
    process may change them, both timestamps then hold that value, which
    is not after the time of the call, and the fix is logged; when it may
    not, the files are as before and the failure is logged.  The code the
    call returns does not depend on the files at all. *)
Theorem nasl_plugin_add_fixes_future_mtime (folder name : string) (w : world)
    (d : nvti_t) (f : file_times) :
  parsed_nvti folder name w = Some d ->
  w_files w !! snprintf_fullname folder name = Some f ->
  w_time w < st_mtime f ->
  EvUtime (snprintf_fullname folder name) (w_time w - 1) (w_time w - 1)
    ∈ events_of (nasl_plugin_add folder name) w /\
  (utime_permitted f = true ->
     (exists f', w_files (snd (nasl_plugin_add folder name w)) !! snprintf_fullname folder name
                   = Some f' /\
                 st_atime f' = w_time w - 1 /\ st_mtime f' = w_time w - 1 /\
                 st_mtime f' <= w_time w) /\
     EvDebug (LogTimestampFixed (snprintf_fullname folder name))
       ∈ events_of (nasl_plugin_add folder name) w) /\
  (utime_permitted f = false ->
     w_files (snd (nasl_plugin_add folder name w)) = w_files w /\
     EvDebug (LogTimestampNotFixed (snprintf_fullname folder name))
       ∈ events_of (nasl_plugin_add folder name) w) /\
  (forall files',
     fst (nasl_plugin_add folder name (with_files files' w)) =
     fst (nasl_plugin_add folder name w)).
Proof.
  intros Hp Hf Hlt.
  assert (Hindep : forall files',
             fst (nasl_plugin_add folder name (with_files files' w)) =
             fst (nasl_plugin_add folder name w)).
  { intros files'.
    assert (Hp' : parsed_nvti folder name (with_files files' w) = Some d) by exact Hp.
    destruct (nasl_plugin_add_parsed_view folder name _ d Hp) as (_ & _ & _ & Hr & _).
    destruct (nasl_plugin_add_parsed_view folder name _ d Hp') as (_ & _ & _ & Hr' & _).
    rewrite Hr, Hr'. done. }
  split; [|split; [|split; [|exact Hindep]]];
    unfold events_of;
    rewrite (nasl_plugin_add_parsed _ _ _ _ Hp), (world_after_parse_future _ _ _ _ Hf Hlt);
    cbv zeta;
    destruct (utime_permitted f); destruct (nvti_oid d); simpl;
    rewrite <- ?app_assoc; simpl; rewrite ?drop_app_length;
    try find_event;
    intros Hx; try discriminate Hx;
    (split; [first [done | eexists; split; [apply lookup_insert_eq|]; simpl; repeat split; lia]
            | find_event]).
Qed.

(** ** [nasl_thread] *)

(** The run of the worker a launch starts: it reaches its end, and these
    are its events and the nice value it ends with. *)
Lemma nasl_thread_launch_view (globals : arglist) (hostinfo : host_info) (kb : kb_t)
    (name : string) (oid : option string) (soc : Z) (w : world) :
  fst (nasl_thread (launch_args globals hostinfo kb name oid soc) w) = true /\
  events_of (nasl_thread (launch_args globals hostinfo kb name oid soc)) w =
    [EvCacheReset] ++ renice_events w ++
    [EvChildCleanup; EvKbLnkReset kb; EvProctitle (hi_name hostinfo) name] ++
    drop_events name w ++
    [EvExec (worker_args globals hostinfo kb soc) name oid (worker_mode w);
     finished_marker soc] /\
  p_nice (w_proc (snd (nasl_thread (launch_args globals hostinfo kb name oid soc) w))) =
    p_nice (proc_at_drop w).
Proof.
  destruct w as [prefs cache files tm stack [nv uid] err tr].
  unfold events_of, nasl_thread, launch_args, renice_events, drop_events, drop_code,
    proc_at_drop, worker_args, worker_mode, finished_marker, nice.
  run.
  destruct (bool_decide (prefs !! "be_nice" = Some (Some "yes"))); run;
    [destruct (uid =? 0); run; [destruct (_ =? -1); run|]|];
    destruct (bool_decide (prefs !! "nasl_no_signature_check" = Some (Some "yes"))); run;
    (destruct (bool_decide (prefs !! "drop_privileges" = Some (Some "yes"))); run;
     [destruct (privileges_drop _) as [r uid'] eqn:Hpd; run;
      destruct (r =? GVM_DROP_PRIVILEGES_OK); run;
      [|destruct (r =? GVM_DROP_PRIVILEGES_FAIL_NOT_ROOT); run]|]);
    rewrite <- ?app_assoc; simpl; rewrite ?drop_app_length; done.
Qed.

Lemma renice_events_kinds (w : world) (e : event) :
  e ∈ renice_events w ->
  is_send e = false /\ is_exec e = false /\ e <> EvDropPrivileges /\
  (forall name, e <> EvDebug (LogFailedToDropPrivileges name)).
Proof.
  unfold renice_events. repeat case_match; intros He; walk He.
Qed.

Lemma drop_events_kinds (name : string) (w : world) (e : event) :
  e ∈ drop_events name w -> is_send e = false /\ is_exec e = false.
Proof.
  unfold drop_events. repeat case_match; simpl; intros He; walk He.
Qed.

Lemma no_sends (l : list event) :
  (forall e, e ∈ l -> is_send e = false) -> List.filter is_send l = [].
Proof.
  induction l as [|e l IH]; intros H; simpl; [done|].
  rewrite (H e) by left. apply IH. intros e' He'. apply H. by right.
Qed.

(** The child of a launch whose fork succeeded runs [nasl_thread] on the
    bundle built by the launch, in a copy of the parent's world. *)
Lemma nasl_plugin_launch_child (globals : arglist) (hostinfo : host_info) (kb : kb_t)
    (name : string) (oid : option string) (soc : Z) (w : world) :
  0 <= spawn_pid (w_proc w) ->
  snd (nasl_plugin_launch globals hostinfo kb name oid soc w) =
    Some (nasl_thread (launch_args globals hostinfo kb name oid soc)
            (with_trace (w_trace w ++
                         [EvCreateProcess (launch_args globals hostinfo kb name oid soc)]) w)).
Proof.
  intros Hpid. unfold nasl_plugin_launch. run.
  destruct (spawn_pid (w_proc w) <? 0) eqn:E; [apply Z.ltb_lt in E; lia | done].
Qed.

(** C1.  The worker of a launch runs to its end and, whatever the
    interpreter and the other calls answered, exactly one of its events is
    a send: the control message with the FINISHED flag and no payload, on
    the launch's socket.  It is the last event and follows the
    interpreter's run. *)
Theorem nasl_thread_sends_one_marker (globals : arglist) (hostinfo : host_info) (kb : kb_t)
    (name : string) (oid : option string) (soc : Z) (w : world) :
  fst (nasl_thread (launch_args globals hostinfo kb name oid soc) w) = true /\
  List.filter is_send (events_of (nasl_thread (launch_args globals hostinfo kb name oid soc)) w) =
    [EvSend soc None (Z.lor INTERNAL_COMM_MSG_TYPE_CTRL INTERNAL_COMM_CTRL_FINISHED)] /\
  exists pre,
    events_of (nasl_thread (launch_args globals hostinfo kb name oid soc)) w =
      pre ++ [EvExec (worker_args globals hostinfo kb soc) name oid (worker_mode w);
              EvSend soc None (Z.lor INTERNAL_COMM_MSG_TYPE_CTRL INTERNAL_COMM_CTRL_FINISHED)].
Proof.
  destruct (nasl_thread_launch_view globals hostinfo kb name oid soc w) as (Hfin & Hev & _).
  split; [exact Hfin|]. rewrite Hev. split.
  - rewrite !List.filter_app.
    rewrite (no_sends (renice_events w))
      by (intros e He; by apply renice_events_kinds in He as (? & _)).
    rewrite (no_sends (drop_events name w))
      by (intros e He; by apply drop_events_kinds in He as (? & _)).
    done.
  - exists ([EvCacheReset] ++ renice_events w ++
            [EvChildCleanup; EvKbLnkReset kb; EvProctitle (hi_name hostinfo) name] ++
            drop_events name w).
    by rewrite <- !app_assoc.
Qed.

(** C7.  When the preferences ask for the privilege drop, the worker of a
    launch attempts it.  An answer "not root" leaves no failure message; an
    answer that is neither "ok" nor "not root" leaves the failure message;
    and whatever the answer, the worker goes on to the interpreter's run,
    sends the marker and reaches its end. *)
Theorem nasl_thread_privilege_drop_not_fatal (globals : arglist) (hostinfo : host_info)
    (kb : kb_t) (name : string) (oid : option string) (soc : Z) (w : world) :
  w_prefs w !! "drop_privileges" = Some (Some "yes") ->
  (drop_code w = GVM_DROP_PRIVILEGES_FAIL_NOT_ROOT ->
     EvDebug (LogFailedToDropPrivileges name)
       ∉ events_of (nasl_thread (launch_args globals hostinfo kb name oid soc)) w) /\
  (drop_code w <> GVM_DROP_PRIVILEGES_OK ->
   drop_code w <> GVM_DROP_PRIVILEGES_FAIL_NOT_ROOT ->
     EvDebug (LogFailedToDropPrivileges name)
       ∈ events_of (nasl_thread (launch_args globals hostinfo kb name oid soc)) w) /\
  fst (nasl_thread (launch_args globals hostinfo kb name oid soc) w) = true /\
  exists pre,
    events_of (nasl_thread (launch_args globals hostinfo kb name oid soc)) w =
      pre ++ [EvExec (worker_args globals hostinfo kb soc) name oid (worker_mode w);
              EvSend soc None (Z.lor INTERNAL_COMM_MSG_TYPE_CTRL INTERNAL_COMM_CTRL_FINISHED)] /\
    EvDropPrivileges ∈ pre /\
    forall e, e ∈ pre -> is_exec e = false /\ is_send e = false.
Proof.
  intros Hwant.
  destruct (nasl_thread_launch_view globals hostinfo kb name oid soc w) as (Hfin & Hev & _).
  rewrite Hev.
  assert (Hyes : bool_decide (w_prefs w !! "drop_privileges" = Some (Some "yes")) = true)
    by (by apply bool_decide_eq_true).
  split; [|split; [|split; [exact Hfin|]]].
  - intros Hcode Hin.
    apply elem_of_app in Hin as [Hin|Hin]; [refute Hin|].
    apply elem_of_app in Hin as [Hin|Hin].
    { apply renice_events_kinds in Hin as (_ & _ & _ & Hne). by apply (Hne name). }
    apply elem_of_app in Hin as [Hin|Hin]; [refute Hin|].
    apply elem_of_app in Hin as [Hin|Hin]; [|refute Hin].
    unfold drop_events in Hin. rewrite Hyes, Hcode, Z.eqb_refl in Hin.
    destruct (_ =? _) in Hin; simpl in Hin; refute Hin.
  - intros Hok Hnr. unfold drop_events. rewrite Hyes.
    apply Z.eqb_neq in Hok, Hnr. rewrite Hok, Hnr. simpl. find_event.
  - exists ([EvCacheReset] ++ renice_events w ++
            [EvChildCleanup; EvKbLnkReset kb; EvProctitle (hi_name hostinfo) name] ++
            drop_events name w).
    split; [by rewrite <- !app_assoc|]. split.
    + unfold drop_events. rewrite Hyes. find_event.
    + intros e He.
      apply elem_of_app in He as [He|He]; [walk He|].
      apply elem_of_app in He as [He|He].
      { by apply renice_events_kinds in He as (? & ? & _). }
      apply elem_of_app in He as [He|He]; [walk He|].
      by apply drop_events_kinds in He as (? & ?).
Qed.

(** C8, what the code does.  When the preferences set [be_nice], the worker
    of a launch calls [nice (-5)]: its nice value never goes up, so its
    scheduling priority is never lowered.  A privileged worker ends with a
    nice value five lower (a higher priority), down to the floor of -20; an
    unprivileged one keeps its nice value and logs the refusal.  In both
    cases the worker reaches its end. *)
Theorem nasl_thread_be_nice_never_lowers_priority (globals : arglist) (hostinfo : host_info)
    (kb : kb_t) (name : string) (oid : option string) (soc : Z) (w : world) :
  w_prefs w !! "be_nice" = Some (Some "yes") ->
  -20 <= p_nice (w_proc w) <= 19 ->
  EvNice (-5) ∈ events_of (nasl_thread (launch_args globals hostinfo kb name oid soc)) w /\
  p_nice (w_proc (snd (nasl_thread (launch_args globals hostinfo kb name oid soc) w)))
    <= p_nice (w_proc w) /\
  (p_euid (w_proc w) = 0 ->
     p_nice (w_proc (snd (nasl_thread (launch_args globals hostinfo kb name oid soc) w)))
       = Z.max (-20) (p_nice (w_proc w) - 5)) /\
  (p_euid (w_proc w) <> 0 ->
     p_nice (w_proc (snd (nasl_thread (launch_args globals hostinfo kb name oid soc) w)))
       = p_nice (w_proc w) /\
     EvDebug (LogUnableToRenice EPERM)
       ∈ events_of (nasl_thread (launch_args globals hostinfo kb name oid soc)) w) /\
  fst (nasl_thread (launch_args globals hostinfo kb name oid soc) w) = true.
Proof.
  intros Hnice Hrange.
  destruct (nasl_thread_launch_view globals hostinfo kb name oid soc w) as (Hfin & Hev & Hp).
  rewrite Hev, Hp.
  assert (Hyes : bool_decide (w_prefs w !! "be_nice" = Some (Some "yes")) = true)
    by (by apply bool_decide_eq_true).
  unfold renice_events, proc_at_drop, nice. rewrite Hyes. run.
  split; [find_event|].
  destruct (p_euid (w_proc w) =? 0) eqn:Huid; simpl.
  - apply Z.eqb_eq in Huid. repeat split; try done; try lia.
  - apply Z.eqb_neq in Huid. repeat split; try done; try lia.
    find_event.
Qed.

End Properties.

(** * Evaluation on concrete inputs *)

Section Instances.

#[local] Existing Instance Fixture.linux.
#[local] Existing Instance Fixture.ext_ok.

Import Fixture.

(** ** With the cache that hands back what was stored *)

Section PlainCache.

#[local] Existing Instance Fixture.plain_cache.

(** A script that exits before its identifier is set. *)
Lemma nasl_plugin_add_rejects_null_oid_witness :
  nvti_oid no_oid = None /\
  parsed_nvti "/p" "early.nasl" w_empty = Some no_oid /\
  (forall nm, EvCacheAdd no_oid nm ∉ events_of (nasl_plugin_add "/p" "early.nasl") w_empty) /\
  fst (nasl_plugin_add "/p" "early.nasl" w_empty) = -1 /\
  EvNvtiFree no_oid ∈ events_of (nasl_plugin_add "/p" "early.nasl") w_empty /\
  (forall e, e ∈ events_of (nasl_plugin_add "/p" "early.nasl") w_empty -> is_prefs_set e = false) /\
  w_prefs (snd (nasl_plugin_add "/p" "early.nasl" w_empty)) = w_prefs w_empty.
Proof.
  assert (Hnull : nvti_oid no_oid = None) by reflexivity.
  assert (Hp : parsed_nvti "/p" "early.nasl" w_empty = Some no_oid) by (vm_compute; reflexivity).
  destruct (nasl_plugin_add_rejects_null_oid "/p" "early.nasl" w_empty no_oid Hnull)
    as [Hadd Hrej].
  split; [exact Hnull|]. split; [exact Hp|]. split; [exact Hadd|].
  exact (Hrej (or_intror (or_introl Hp))).
Defined.

(** Presence in the cache alone does not make a load succeed: the cache
    holds a descriptor without identifier under the name; the load finds
    it, does not run the interpreter, and returns -1. *)
Lemma cached_null_oid_load_fails :
  fetched_nvti "x.nasl" w_stale = Some no_oid /\
  fst (nasl_plugin_add "/p" "x.nasl" w_stale) = -1 /\
  events_of (nasl_plugin_add "/p" "x.nasl") w_stale =
    [EvCacheGet "x.nasl"; EvDebug (LogFailedToLoadNoOid "x.nasl"); EvNvtiFree no_oid] /\
  ~ (forall (folder name : string) (w : world) (d : nvti_t),
       fetched_nvti name w = Some d -> fst (nasl_plugin_add folder name w) = 0).
Proof.
  split; [vm_compute; reflexivity|]. split; [vm_compute; reflexivity|].
  split; [vm_compute; reflexivity|].
  intros H. specialize (H "/p" "x.nasl" w_stale no_oid). vm_compute in H.
  specialize (H eq_refl). discriminate H.
Qed.

(** The file of [good.nasl] carries modification time 2000 at time 1000. *)
Lemma nasl_plugin_add_fixes_future_mtime_witness :
  parsed_nvti "/p" "good.nasl" w_empty = Some good /\
  w_files w_empty !! snprintf_fullname "/p" "good.nasl" = Some (mk_file_times 900 2000 true) /\
  w_time w_empty < 2000 /\
  EvUtime "/p/good.nasl" 999 999 ∈ events_of (nasl_plugin_add "/p" "good.nasl") w_empty /\
  (exists f', w_files (snd (nasl_plugin_add "/p" "good.nasl" w_empty)) !! "/p/good.nasl" = Some f' /\
              st_atime f' = 999 /\ st_mtime f' = 999 /\ st_mtime f' <= 1000) /\
  (forall files',
     fst (nasl_plugin_add "/p" "good.nasl" (with_files files' w_empty)) =
     fst (nasl_plugin_add "/p" "good.nasl" w_empty)).
Proof.
  assert (Hp : parsed_nvti "/p" "good.nasl" w_empty = Some good) by (vm_compute; reflexivity).
  assert (Hf : w_files w_empty !! snprintf_fullname "/p" "good.nasl" =
               Some (mk_file_times 900 2000 true)) by (vm_compute; reflexivity).
  assert (Hlt : w_time w_empty < st_mtime (mk_file_times 900 2000 true))
    by (vm_compute; reflexivity).
  destruct (nasl_plugin_add_fixes_future_mtime "/p" "good.nasl" w_empty good _ Hp Hf Hlt)
    as (Hut & Hok & _ & Hindep).
  split; [exact Hp|]. split; [exact Hf|]. split; [exact Hlt|].
  split; [exact Hut|]. split; [exact (proj1 (Hok eq_refl))|exact Hindep].
Defined.

Lemma nasl_plugin_add_interpreter_failure_witness :
  fetched_nvti "broken.nasl" w_empty = None /\
  fst (descr_run "/p" "broken.nasl" w_empty) < 0 /\
  fst (nasl_plugin_add "/p" "broken.nasl" w_empty) = -1 /\
  w_cache (snd (nasl_plugin_add "/p" "broken.nasl" w_empty)) = w_cache w_empty /\
  w_files (snd (nasl_plugin_add "/p" "broken.nasl" w_empty)) = w_files w_empty /\
  w_prefs (snd (nasl_plugin_add "/p" "broken.nasl" w_empty)) = w_prefs w_empty /\
  events_of (nasl_plugin_add "/p" "broken.nasl") w_empty =
    [EvCacheGet "broken.nasl";
     EvExec descr_args (snprintf_fullname "/p" "broken.nasl") None (descr_mode w_empty);
     EvDebug (LogCouldNotBeLoaded (snprintf_fullname "/p" "broken.nasl"));
     EvArgFree].
Proof.
  assert (Hget : fetched_nvti "broken.nasl" w_empty = None) by (vm_compute; reflexivity).
  assert (Hneg : fst (descr_run "/p" "broken.nasl" w_empty) < 0) by (vm_compute; reflexivity).
  split; [exact Hget|]. split; [exact Hneg|].
  exact (nasl_plugin_add_interpreter_failure "/p" "broken.nasl" w_empty Hget Hneg).
Defined.

Lemma nasl_plugin_add_hit_leaves_cache_and_files_witness :
  fetched_nvti "good.nasl" w_cached = Some good /\
  w_cache (snd (nasl_plugin_add "/p" "good.nasl" w_cached)) = w_cache w_cached /\
  w_files (snd (nasl_plugin_add "/p" "good.nasl" w_cached)) = w_files w_cached /\
  forall e, e ∈ events_of (nasl_plugin_add "/p" "good.nasl") w_cached -> is_miss_only e = false.
Proof.
  assert (Hget : fetched_nvti "good.nasl" w_cached = Some good) by (vm_compute; reflexivity).
  split; [exact Hget|].
  exact (nasl_plugin_add_hit_leaves_cache_and_files "/p" "good.nasl" w_cached good Hget).
Defined.

(** A privileged worker at nice value 0 with [be_nice] set ends at nice
    value -5: its priority went up. *)
Lemma nasl_thread_be_nice_never_lowers_priority_witness :
  w_prefs w_root !! "be_nice" = Some (Some "yes") /\
  -20 <= p_nice (w_proc w_root) <= 19 /\
  p_nice (w_proc (snd (nasl_thread
                         (launch_args arg_end (mk_host_info "h") 7 "x.nasl" (Some "1.2") 5)
                         w_root)))
    = Z.max (-20) (p_nice (w_proc w_root) - 5).
Proof.
  assert (Hnice : w_prefs w_root !! "be_nice" = Some (Some "yes")) by (vm_compute; reflexivity).
  assert (Hrange : -20 <= p_nice (w_proc w_root) <= 19) by (vm_compute; split; discriminate).
  split; [exact Hnice|]. split; [exact Hrange|].
  destruct (nasl_thread_be_nice_never_lowers_priority arg_end (mk_host_info "h") 7 "x.nasl"
              (Some "1.2") 5 w_root Hnice Hrange) as (_ & _ & Hroot & _).
  exact (Hroot eq_refl).
Defined.

Example be_nice_as_root_raises_priority :
  p_nice (w_proc w_root) = 0 /\
  p_nice (w_proc (snd (nasl_thread
                         (launch_args arg_end (mk_host_info "h") 7 "x.nasl" (Some "1.2") 5)
                         w_root))) = -5.
Proof. split; vm_compute; reflexivity. Qed.

(** The privilege drop answers "unknown user": logged, and the worker goes
    on. *)
Lemma nasl_thread_privilege_drop_not_fatal_witness :
  w_prefs w_root !! "drop_privileges" = Some (Some "yes") /\
  drop_code (ext := ext_unknown_user) w_root = 2 /\
  EvDebug (LogFailedToDropPrivileges "x.nasl")
    ∈ events_of (nasl_thread (ext := ext_unknown_user)
                   (launch_args arg_end (mk_host_info "h") 7 "x.nasl" (Some "1.2") 5)) w_root /\
  fst (nasl_thread (ext := ext_unknown_user)
         (launch_args arg_end (mk_host_info "h") 7 "x.nasl" (Some "1.2") 5) w_root) = true.
Proof.
  assert (Hwant : w_prefs w_root !! "drop_privileges" = Some (Some "yes")) by (vm_compute; reflexivity).
  assert (Hcode : drop_code (ext := ext_unknown_user) w_root = 2) by (vm_compute; reflexivity).
  destruct (nasl_thread_privilege_drop_not_fatal (ext := ext_unknown_user)
              arg_end (mk_host_info "h") 7 "x.nasl" (Some "1.2") 5 w_root Hwant)
    as (_ & Hlogged & Hfin & _).
  split; [exact Hwant|]. split; [exact Hcode|]. split; [|exact Hfin].
  apply Hlogged; rewrite Hcode; vm_compute; discriminate.
Defined.

(** The same worker as an unprivileged user whose drop answers "not
    root": the refusal of [nice] is logged, the drop is not. *)
Example worker_as_user_trace :
  events_of (nasl_thread (ext := ext_not_root)
               (launch_args arg_end (mk_host_info "h") 7 "x.nasl" (Some "1.2") 5)) w_user =
    [EvCacheReset; EvNice (-5); EvDebug (LogUnableToRenice 1); EvChildCleanup;
     EvKbLnkReset 7; EvProctitle "h" "x.nasl"; EvDropPrivileges; EvErrorFree;
     EvExec (worker_args arg_end (mk_host_info "h") 7 5) "x.nasl" (Some "1.2") 0;
     EvSend 5 None 65537].
Proof. vm_compute. reflexivity. Qed.

(** Merging [good]: three calls in declaration order; the first and the
    third write the same key, and the third's value stays. *)
Example merge_good :
  events_of (prefs_add_nvti (Some good)) w_empty =
    [EvPrefsSet "Probe [entry]:Timeout" (Some "5"); EvPrefsSet "Probe [entry]:User" (Some "admin");
     EvPrefsSet "Probe [entry]:Timeout" (Some "30")] /\
  w_prefs (snd (prefs_add_nvti (Some good) w_empty)) !! "Probe [entry]:Timeout" = Some (Some "30").
Proof. split; vm_compute; reflexivity. Qed.

End PlainCache.

(** ** With the cache that stores a canonical form *)

Section ChompingCache.

#[local] Existing Instance Fixture.chomping_cache.

Lemma nasl_plugin_add_commits_then_refetches_witness :
  parsed_nvti "/p" "good.nasl" w_canon = Some good /\
  nvti_oid good = Some "1.3.6.1.4.1.25623.1.0.1" /\
  refetched_nvti "/p" "good.nasl" w_canon = Some (mk_nvti (nvti_oid good) (Some "Probe") (nvti_prefs good)) /\
  w_cache (snd (nasl_plugin_add "/p" "good.nasl" w_canon)) =
    cache_add good "good.nasl" (w_cache w_canon) /\
  List.filter is_prefs_set (events_of (nasl_plugin_add "/p" "good.nasl") w_canon) =
    merge_writes (mk_nvti (nvti_oid good) (Some "Probe") (nvti_prefs good)) (nvti_prefs good) /\
  fst (nasl_plugin_add "/p" "good.nasl" w_canon) = 0.
Proof.
  assert (Hp : parsed_nvti "/p" "good.nasl" w_canon = Some good) by (vm_compute; reflexivity).
  assert (Hoid : nvti_oid good = Some "1.3.6.1.4.1.25623.1.0.1") by reflexivity.
  assert (Hre : refetched_nvti "/p" "good.nasl" w_canon =
                Some (mk_nvti (nvti_oid good) (Some "Probe") (nvti_prefs good)))
    by (vm_compute; reflexivity).
  destruct (nasl_plugin_add_commits_then_refetches "/p" "good.nasl" w_canon good _ Hp Hoid)
    as (_ & Hc & _ & Hw & _ & Hr).
  rewrite Hre in Hw, Hr.
  split; [exact Hp|]. split; [exact Hoid|]. split; [exact Hre|]. split; [exact Hc|].
  split; [exact Hw | exact Hr].
Defined.

(** The calls are those of the copy fetched from the cache, whose name
    lost its trailing blank, not those of the parsed descriptor. *)
Example merge_uses_the_refetched_copy :
  List.filter is_prefs_set (events_of (nasl_plugin_add "/p" "good.nasl") w_canon) =
    [EvPrefsSet "Probe[entry]:Timeout" (Some "5"); EvPrefsSet "Probe[entry]:User" (Some "admin");
     EvPrefsSet "Probe[entry]:Timeout" (Some "30")] /\
  merge_writes good (nvti_prefs good) =
    [EvPrefsSet "Probe [entry]:Timeout" (Some "5"); EvPrefsSet "Probe [entry]:User" (Some "admin");
     EvPrefsSet "Probe [entry]:Timeout" (Some "30")].
Proof. split; vm_compute; reflexivity. Qed.

End ChompingCache.

End Instances.

(** * Further properties of the code *)

Section MoreProperties.

Context {hdr : Headers} {nc : NvtiCache} {ext : Externals}.

#[local] Arguments prefs_add_nvti : simpl never.
#[local] Arguments fix_future_mtime : simpl never.
#[local] Arguments world_after_parse : simpl never.

Ltac exec_calls :=
  repeat (progress (unfold bind, ret, emit, g_debug, time, uninitialised_mtime, stat, utime,
                    nvti_free, prefs_get_bool, prefs_set, nvticache_get, nvticache_add,
                    nvticache_reset, exec_nasl_script, set_errno, errno, drop_privileges,
                    g_error_free, pluginlaunch_child_cleanup, kb_lnk_reset, proctitle_set,
                    internal_send; simpl)).

(** [H : e ∈ l] for a variable [e] and an explicit [l]: one goal per
    element. *)
Ltac scan H :=
  repeat (apply elem_of_cons in H as [->|H]; [try done|]);
  try (by apply elem_of_nil in H).


Ltac locate :=
  repeat first [apply list_elem_of_here | apply list_elem_of_further
               | (apply elem_of_app; right)].

Lemma filter_nothing (p : event -> bool) (l : list event) :
  (forall e, e ∈ l -> p e = false) -> List.filter p l = [].
Proof.
  induction l as [|e l IH]; intros H; simpl; [done|].
  rewrite (H e) by left. apply IH. intros e' He'. apply H. by right.
Qed.

(** *** The timestamp block, exactly *)

Lemma fix_future_mtime_exact (fullname : string) (w : world) :
  w_files (snd (fix_future_mtime fullname w)) = timestamp_block_files fullname w /\
  w_trace (snd (fix_future_mtime fullname w)) = w_trace w ++ timestamp_block_events fullname w.
Proof.
  unfold fix_future_mtime, timestamp_block_files, timestamp_block_events, seen_mtime.
  exec_calls.
  destruct (w_files w !! fullname) as [f|] eqn:Hf; simpl.
  - destruct (st_mtime f >? w_time w - 1); exec_calls; [|done].
    rewrite Hf. destruct (utime_permitted f) eqn:Hperm; simpl; rewrite <- ?app_assoc; done.
  - destruct (w_stack w >? w_time w - 1); exec_calls; [|done].
    rewrite Hf. simpl. rewrite <- ?app_assoc. done.
Qed.

Lemma timestamp_block_events_kinds (fullname : string) (w : world) (e : event) :
  e ∈ timestamp_block_events fullname w -> is_timestamp_event e = true.
Proof.
  unfold timestamp_block_events. intros He.
  apply elem_of_cons in He as [->|He]; [done|].
  destruct (_ >? _); [|by apply elem_of_nil in He].
  apply elem_of_cons in He as [->|He]; [done|].
  apply elem_of_cons in He as [->|He]; [|by apply elem_of_nil in He].
  destruct (w_files w !! fullname) as [f|]; [destruct (utime_permitted f)|]; done.
Qed.

(** The parse way with the events of the timestamp block spelled out. *)
Lemma nasl_plugin_add_parsed_exact (folder name : string) (w : world) (d : nvti_t) :
  parsed_nvti folder name w = Some d ->
  events_of (nasl_plugin_add folder name) w =
    [EvCacheGet name;
     EvExec descr_args (snprintf_fullname folder name) None (descr_mode w);
     EvArgFree] ++
    timestamp_block_events (snprintf_fullname folder name) w ++
    commit_events name d (cache_get name (cache_add d name (w_cache w))) /\
  w_files (snd (nasl_plugin_add folder name w)) =
    timestamp_block_files (snprintf_fullname folder name) w.
Proof.
  intros Hp.
  destruct (world_after_parse_frame folder name w) as (_ & Hcache & _).
  destruct (fix_future_mtime_exact (snprintf_fullname folder name)
              (with_trace (w_trace w ++ [EvCacheGet name;
                 EvExec descr_args (snprintf_fullname folder name) None (descr_mode w);
                 EvArgFree]) w)) as (Hfiles & Htr).
  change (w_files (world_after_parse folder name w) =
          timestamp_block_files (snprintf_fullname folder name) w) in Hfiles.
  change (w_trace (world_after_parse folder name w) =
          (w_trace w ++ [EvCacheGet name;
             EvExec descr_args (snprintf_fullname folder name) None (descr_mode w);
             EvArgFree]) ++ timestamp_block_events (snprintf_fullname folder name) w) in Htr.
  unfold events_of, commit_events.
  rewrite (nasl_plugin_add_parsed _ _ _ _ Hp). cbv zeta.
  destruct (nvti_oid d); simpl; rewrite ?Hcache, Htr, Hfiles, <- !app_assoc, drop_app_length;
    done.
Qed.

Lemma parsed_is_a_miss (folder name : string) (w : world) (d : nvti_t) :
  parsed_nvti folder name w = Some d ->
  fetched_nvti name w = None /\ 0 <= fst (descr_run folder name w).
Proof.
  unfold parsed_nvti. destruct (fetched_nvti name w); [done|].
  destruct (fst (descr_run folder name w) <? 0) eqn:E; [done|].
  intros _. split; [done|]. apply Z.ltb_ge in E. lia.
Qed.

Lemma timestamp_event_not_exec (e : event) :
  is_timestamp_event e = true -> is_exec e = false /\ is_send e = false.
Proof. by destruct e. Qed.

Lemma commit_events_kinds (name : string) (d : nvti_t) (r : option nvti_t) (e : event) :
  e ∈ commit_events name d r -> is_exec e = false /\ is_timestamp_event e = false.
Proof.
  unfold commit_events. destruct (nvti_oid d); intros [He|He]%elem_of_app.
  - scan He.
  - by apply accept_events_kinds in He as (_ & ? & _ & ?).
  - scan He.
  - by apply accept_events_kinds in He as (_ & ? & _ & ?).
Qed.

Lemma commit_events_writes (name : string) (d : nvti_t) (r : option nvti_t) :
  List.filter is_prefs_set (commit_events name d r) =
    match nvti_oid d with
    | Some _ => List.filter is_prefs_set (accept_events name r)
    | None => []
    end.
Proof. unfold commit_events. by destruct (nvti_oid d). Qed.

(** ** [nasl_plugin_add]: how often the interpreter runs *)

(** X1.  A call runs the interpreter at most once: not at all when the
    cache lookup finds the name, and exactly once otherwise, in description
    mode on the file [folder/name] and without an identifier. *)
Theorem nasl_plugin_add_interpreter_runs (folder name : string) (w : world) :
  List.filter is_exec (events_of (nasl_plugin_add folder name) w) =
    match fetched_nvti name w with
    | Some _ => []
    | None => [EvExec descr_args (snprintf_fullname folder name) None (descr_mode w)]
    end.
Proof.
  destruct (nasl_plugin_add_cases folder name w) as [[d Hget]|[[Hget Hneg]|[d Hp]]].
  - destruct (nasl_plugin_add_hit_view folder name w d Hget) as (Hev & _).
    rewrite Hev, Hget. apply filter_nothing.
    intros e [->|He]%elem_of_cons; [done|].
    by apply accept_events_kinds in He as (_ & ? & _).
  - rewrite (nasl_plugin_add_interpreter_failure_events folder name w Hget Hneg), Hget.
    done.
  - destruct (nasl_plugin_add_parsed_exact folder name w d Hp) as (Hev & _).
    destruct (parsed_is_a_miss folder name w d Hp) as (Hget & _).
    rewrite Hev, Hget, !List.filter_app.
    rewrite (filter_nothing is_exec (timestamp_block_events _ _))
      by (intros e He; by apply timestamp_block_events_kinds, timestamp_event_not_exec in He
                             as (? & _)).
    rewrite (filter_nothing is_exec (commit_events _ _ _))
      by (intros e He; by apply commit_events_kinds in He as (? & _)).
    done.
Qed.

(** ** [nasl_plugin_add]: the two outcomes *)

(** X2.  Every call ends in one of two ways.  Either it returns 0, the
    cache then holds under the name a descriptor with an identifier, the
    [prefs_set] calls made are those of that descriptor and the preferences
    are the old ones with that descriptor merged in; or it returns -1, has
    made no [prefs_set] call and leaves the preferences as they were. *)
Theorem nasl_plugin_add_all_or_nothing (folder name : string) (w : world) :
  (fst (nasl_plugin_add folder name w) = 0 /\
   exists n o,
     fetched_nvti name (snd (nasl_plugin_add folder name w)) = Some n /\
     nvti_oid n = Some o /\
     List.filter is_prefs_set (events_of (nasl_plugin_add folder name) w) =
       merge_writes n (nvti_prefs n) /\
     w_prefs (snd (nasl_plugin_add folder name w)) =
       merge_prefs n (nvti_prefs n) (w_prefs w))
  \/
  (fst (nasl_plugin_add folder name w) = -1 /\
   List.filter is_prefs_set (events_of (nasl_plugin_add folder name) w) = [] /\
   w_prefs (snd (nasl_plugin_add folder name w)) = w_prefs w).
Proof.
  destruct (nasl_plugin_add_cases folder name w) as [[d Hget]|[[Hget Hneg]|[d Hp]]].
  - destruct (nasl_plugin_add_hit_view folder name w d Hget) as (Hev & Hr & Hprefs & Hc & _).
    rewrite Hev, Hr, Hprefs. unfold fetched_nvti in *. rewrite Hc.
    change (List.filter is_prefs_set (EvCacheGet name :: accept_events name (Some d)))
      with (List.filter is_prefs_set (accept_events name (Some d))).
    rewrite accept_events_writes. simpl.
    destruct (nvti_oid d) as [o|] eqn:Hoid; [left|right]; [|done].
    split; [done|]. by exists d, o.
  - right. rewrite (nasl_plugin_add_interpreter_failure_events folder name w Hget Hneg).
    by rewrite (nasl_plugin_add_failed _ _ _ Hget Hneg).
  - destruct (nasl_plugin_add_parsed_view folder name w d Hp)
      as (tev & Htev & Hev & Hr & Hprefs & Hc & _).
    rewrite Hev, Hr, Hprefs, !List.filter_app, (timestamp_events_no_writes tev Htev).
    unfold fetched_nvti. rewrite Hc.
    destruct (nvti_oid d) eqn:Hoid; [|by right].
    rewrite List.filter_app, accept_events_writes. simpl.
    destruct (cache_get name (cache_add d name (w_cache w))) as [n|] eqn:Hre; [|by right].
    simpl. destruct (nvti_oid n) as [o|] eqn:Hoidn; [left|by right].
    split; [done|]. by exists n, o.
Qed.

(** X3.  After a call that returned 0, whether it parsed the file or found
    the name in the cache, the next call for the name finds it in the
    cache: it returns 0 without running the interpreter, leaves the cache
    as it is, and makes the same [prefs_set] calls as the first. *)
Theorem nasl_plugin_add_success_then_hit (folder name : string) (w : world) :
  fst (nasl_plugin_add folder name w) = 0 ->
  fst (nasl_plugin_add folder name (snd (nasl_plugin_add folder name w))) = 0 /\
  List.filter is_exec
    (events_of (nasl_plugin_add folder name) (snd (nasl_plugin_add folder name w))) = [] /\
  w_cache (snd (nasl_plugin_add folder name (snd (nasl_plugin_add folder name w)))) =
    w_cache (snd (nasl_plugin_add folder name w)) /\
  List.filter is_prefs_set
    (events_of (nasl_plugin_add folder name) (snd (nasl_plugin_add folder name w))) =
  List.filter is_prefs_set (events_of (nasl_plugin_add folder name) w).
Proof.
  intros Hok.
  assert (Hfirst : exists n o,
             fetched_nvti name (snd (nasl_plugin_add folder name w)) = Some n /\
             nvti_oid n = Some o /\
             List.filter is_prefs_set (events_of (nasl_plugin_add folder name) w) =
               merge_writes n (nvti_prefs n)).
  { destruct (nasl_plugin_add_cases folder name w) as [[d Hget]|[[Hget Hneg]|[d Hp]]].
    - destruct (nasl_plugin_add_hit_view folder name w d Hget) as (Hev & Hr & _ & Hc & _).
      rewrite Hr in Hok. simpl in Hok. destruct (nvti_oid d) as [o|] eqn:Hoid; [|done].
      exists d, o. unfold fetched_nvti in *. rewrite Hc, Hev.
      change (List.filter is_prefs_set (EvCacheGet name :: accept_events name (Some d)))
        with (List.filter is_prefs_set (accept_events name (Some d))).
      by rewrite accept_events_writes, Hoid.
    - by rewrite (nasl_plugin_add_failed _ _ _ Hget Hneg) in Hok.
    - destruct (nasl_plugin_add_parsed_view folder name w d Hp)
        as (tev & Htev & Hev & Hr & _ & Hc & _).
      rewrite Hr in Hok. destruct (nvti_oid d) eqn:Hoid; [|done].
      destruct (cache_get name (cache_add d name (w_cache w))) as [n|] eqn:Hre; [|done].
      simpl in Hok. destruct (nvti_oid n) as [o|] eqn:Hoidn; [|done].
      exists n, o. unfold fetched_nvti. rewrite Hc, Hev, Hre.
      rewrite !List.filter_app, (timestamp_events_no_writes tev Htev), accept_events_writes.
      by rewrite Hoidn. }
  destruct Hfirst as (n & o & Hget' & Hoidn & Hw).
  destruct (nasl_plugin_add_hit_view folder name _ n Hget') as (Hev' & Hr' & _ & Hc' & _).
  rewrite Hr', Hev', Hw, Hc'. unfold accept_code. rewrite Hoidn.
  split; [done|]. split; [|split; [done|]].
  - apply filter_nothing. intros e [->|He]%elem_of_cons; [done|].
    by apply (accept_events_kinds name (Some n)) in He as (_ & ? & _).
  - change (List.filter is_prefs_set (accept_events name (Some n)) =
            merge_writes n (nvti_prefs n)).
    by rewrite accept_events_writes, Hoidn.
Qed.

(** X4.  A failure of the parse is not remembered.  When the lookup misses
    and the interpreter fails, or produces a descriptor without identifier,
    the cache is left as it was, and the next call for the name misses
    again and runs the interpreter again. *)
Theorem nasl_plugin_add_failure_not_cached (folder name : string) (w : world) :
  fetched_nvti name w = None ->
  fst (descr_run folder name w) < 0 \/
    (exists d, parsed_nvti folder name w = Some d /\ nvti_oid d = None) ->
  fst (nasl_plugin_add folder name w) = -1 /\
  w_cache (snd (nasl_plugin_add folder name w)) = w_cache w /\
  List.filter is_exec
    (events_of (nasl_plugin_add folder name) (snd (nasl_plugin_add folder name w))) =
    [EvExec descr_args (snprintf_fullname folder name) None (descr_mode w)].
Proof.
  intros Hget Hwhy.
  assert (Hstate : fst (nasl_plugin_add folder name w) = -1 /\
                   w_cache (snd (nasl_plugin_add folder name w)) = w_cache w /\
                   w_prefs (snd (nasl_plugin_add folder name w)) = w_prefs w).
  { destruct Hwhy as [Hneg|(d & Hp & Hoid)].
    - by rewrite (nasl_plugin_add_failed _ _ _ Hget Hneg).
    - destruct (nasl_plugin_add_parsed_view folder name w d Hp)
        as (_ & _ & _ & Hr & Hprefs & Hc & _).
      by rewrite Hr, Hprefs, Hc, Hoid. }
  destruct Hstate as (Hr & Hc & Hprefs).
  split; [exact Hr|]. split; [exact Hc|].
  assert (Hget' : fetched_nvti name (snd (nasl_plugin_add folder name w)) = None)
    by (unfold fetched_nvti in *; by rewrite Hc).
  destruct (nasl_plugin_add_cases folder name (snd (nasl_plugin_add folder name w)))
    as [[d Hhit]|[[_ Hneg]|[d Hp]]].
  - congruence.
  - rewrite (nasl_plugin_add_interpreter_failure_events folder name _ Hget' Hneg).
    unfold descr_mode. rewrite Hprefs. done.
  - destruct (nasl_plugin_add_parsed_exact folder name _ d Hp) as (Hev & _).
    rewrite Hev, !List.filter_app.
    rewrite (filter_nothing is_exec (timestamp_block_events _ _))
      by (intros e He; by apply timestamp_block_events_kinds, timestamp_event_not_exec in He
                             as (? & _)).
    rewrite (filter_nothing is_exec (commit_events _ _ _))
      by (intros e He; by apply commit_events_kinds in He as (? & _)).
    unfold descr_mode. rewrite Hprefs. done.
Qed.

(** ** [nasl_plugin_add]: the files *)

(** X5.  On a cache miss with a successful parse of a file that exists,
    [utime] is called exactly when the file's modification time is not
    before the time of the call: a file modified in the very second of the
    call is set back by one second too, and a file modified earlier is left
    alone, without any [utime] call. *)
Theorem nasl_plugin_add_utime_boundary (folder name : string) (w : world)
    (d : nvti_t) (f : file_times) :
  parsed_nvti folder name w = Some d ->
  w_files w !! snprintf_fullname folder name = Some f ->
  (w_time w <= st_mtime f ->
     EvUtime (snprintf_fullname folder name) (w_time w - 1) (w_time w - 1)
       ∈ events_of (nasl_plugin_add folder name) w) /\
  (st_mtime f < w_time w ->
     (forall path a m, EvUtime path a m ∉ events_of (nasl_plugin_add folder name) w) /\
     w_files (snd (nasl_plugin_add folder name w)) = w_files w).
Proof.
  intros Hp Hf.
  destruct (nasl_plugin_add_parsed_exact folder name w d Hp) as (Hev & Hfiles).
  rewrite Hev, Hfiles.
  unfold timestamp_block_events, timestamp_block_files, seen_mtime. rewrite Hf.
  split.
  - intros Hge. assert (Hgt : (st_mtime f >? w_time w - 1) = true) by (apply Z.gtb_lt; lia).
    rewrite Hgt. simpl. locate.
  - intros Hlt.
    assert (Hgt : (st_mtime f >? w_time w - 1) = false).
    { destruct (st_mtime f >? w_time w - 1) eqn:E; [apply Z.gtb_lt in E; lia | done]. }
    rewrite Hgt. simpl. split; [|done].
    intros path a m Hin.
    do 4 (apply elem_of_cons in Hin as [?|Hin]; [done|]).
    by apply commit_events_kinds in Hin as (_ & ?).
Qed.

(** X6.  A call changes at most one entry of the file table: that of
    [folder/name], and only on a cache miss, when the file exists, is not
    older than the time of the call and may be changed; both timestamps are
    then the time of the call less one second.  No entry is created or
    removed, and no other path is touched. *)
Theorem nasl_plugin_add_files_frame (folder name : string) (w : world) (path : string) :
  w_files (snd (nasl_plugin_add folder name w)) !! path = w_files w !! path \/
  (path = snprintf_fullname folder name /\
   fetched_nvti name w = None /\
   exists f, w_files w !! path = Some f /\
             w_time w <= st_mtime f /\
             utime_permitted f = true /\
             w_files (snd (nasl_plugin_add folder name w)) !! path =
               Some (mk_file_times (w_time w - 1) (w_time w - 1) true)).
Proof.
  destruct (nasl_plugin_add_cases folder name w) as [[d Hget]|[[Hget Hneg]|[d Hp]]].
  - destruct (nasl_plugin_add_hit_view folder name w d Hget) as (_ & _ & _ & _ & Hf).
    left. by rewrite Hf.
  - left. by rewrite (nasl_plugin_add_failed _ _ _ Hget Hneg).
  - destruct (nasl_plugin_add_parsed_exact folder name w d Hp) as (_ & Hfiles).
    destruct (parsed_is_a_miss folder name w d Hp) as (Hget & _).
    rewrite Hfiles. unfold timestamp_block_files.
    destruct (w_files w !! snprintf_fullname folder name) as [f|] eqn:Hf; [|by left].
    destruct (st_mtime f >? w_time w - 1) eqn:Hgt; simpl; [|by left].
    destruct (utime_permitted f) eqn:Hperm; [|by left].
    destruct (decide (path = snprintf_fullname folder name)) as [->|Hne].
    + right. split; [done|]. split; [done|]. exists f.
      apply Z.gtb_lt in Hgt. repeat split; try done; [lia|]. apply lookup_insert_eq.
    + left. by apply lookup_insert_ne.
Qed.

(** X7.  The cache is keyed by the file name alone: for a name the cache
    holds, the folder plays no part, and calls with different folders
    return the same code and leave the same world. *)
Theorem nasl_plugin_add_hit_ignores_folder (folder1 folder2 name : string) (w : world)
    (d : nvti_t) :
  fetched_nvti name w = Some d ->
  nasl_plugin_add folder1 name w = nasl_plugin_add folder2 name w.
Proof.
  intros Hget.
  rewrite (nasl_plugin_add_hit folder1 _ _ _ Hget).
  rewrite (nasl_plugin_add_hit folder2 _ _ _ Hget).
  reflexivity.
Qed.

(** X8.  The descriptor is stored before it is known whether the call
    succeeds: when the lookup after the store finds nothing, the call
    returns -1 and merges no preference, although the cache has been given
    the parsed descriptor. *)
Theorem nasl_plugin_add_stored_but_not_found (folder name : string) (w : world)
    (d : nvti_t) (o : string) :
  parsed_nvti folder name w = Some d ->
  nvti_oid d = Some o ->
  refetched_nvti folder name w = None ->
  fst (nasl_plugin_add folder name w) = -1 /\
  w_cache (snd (nasl_plugin_add folder name w)) = cache_add d name (w_cache w) /\
  EvCacheAdd d name ∈ events_of (nasl_plugin_add folder name) w /\
  EvDebug (LogFailedToLoad name) ∈ events_of (nasl_plugin_add folder name) w /\
  List.filter is_prefs_set (events_of (nasl_plugin_add folder name) w) = [] /\
  w_prefs (snd (nasl_plugin_add folder name w)) = w_prefs w.
Proof.
  intros Hp Hoid Hre.
  assert (Hnone : cache_get name (cache_add d name (w_cache w)) = None)
    by (unfold refetched_nvti in Hre; by rewrite Hp, Hoid in Hre).
  destruct (nasl_plugin_add_parsed_view folder name w d Hp)
    as (tev & Htev & Hev & Hr & Hprefs & Hc & _).
  rewrite Hev, Hr, Hprefs, Hc, Hoid, Hnone.
  rewrite !List.filter_app, (timestamp_events_no_writes tev Htev). simpl.
  repeat split; try done; locate.
Qed.

(** ** [prefs_add_nvti]: merging again, and names that differ in trailing
    whitespace *)

Lemma merge_prefs_snoc (n : nvti_t) (l : list nvtpref_t) (np : nvtpref_t)
    (m : gmap string (option string)) :
  merge_prefs n (l ++ [np]) m = <[pref_key n np := nvtpref_default np]> (merge_prefs n l m).
Proof. unfold merge_prefs. by rewrite foldl_app. Qed.

(** Merging into [m] is merging into the empty map, laid over [m]. *)
Lemma merge_prefs_union (n : nvti_t) (l : list nvtpref_t) (m : gmap string (option string)) :
  merge_prefs n l m = merge_prefs n l ∅ ∪ m.
Proof.
  induction l as [|np l IH] using rev_ind.
  - simpl. by rewrite (left_id_L ∅ (∪)).
  - rewrite !merge_prefs_snoc, IH. by rewrite insert_union_l.
Qed.

(** X9.  Merging a descriptor a second time changes nothing: the
    preferences after two merges are those after one, and the second merge
    makes the same [prefs_set] calls as the first. *)
Theorem prefs_add_nvti_twice (n : nvti_t) (w : world) :
  w_prefs (snd (prefs_add_nvti (Some n) (snd (prefs_add_nvti (Some n) w)))) =
    w_prefs (snd (prefs_add_nvti (Some n) w)) /\
  events_of (prefs_add_nvti (Some n)) (snd (prefs_add_nvti (Some n) w)) =
    events_of (prefs_add_nvti (Some n)) w.
Proof.
  unfold events_of. rewrite !prefs_add_nvti_run. simpl.
  rewrite !drop_app_length. split; [|done].
  rewrite (merge_prefs_union n _ (merge_prefs n _ _)).
  rewrite (merge_prefs_union n _ (w_prefs w)).
  by rewrite (assoc_L (∪)), (idemp_L (∪)).
Qed.

Lemma merge_prefs_again (n : nvti_t) (l : list nvtpref_t) (m : gmap string (option string)) :
  merge_prefs n l (merge_prefs n l m) = merge_prefs n l m.
Proof.
  rewrite (merge_prefs_union n l (merge_prefs n l m)), (merge_prefs_union n l m).
  by rewrite (assoc_L (∪)), (idemp_L (∪)).
Qed.

(** C3.  After a load of a name that returned success the name is present
    in the cache, with a descriptor that has an identifier; a second load
    of that name does not invoke the interpreter at all and returns
    success; the key/value pairs it writes into the preferences are those
    the first load wrote, in the same order, and the preferences after it
    are those after the first load.  The first load may have parsed the
    file or may have found the name in the cache itself. *)
Theorem nasl_plugin_add_second_load (folder name : string) (w : world) :
  fst (nasl_plugin_add folder name w) = 0 ->
  (exists n o, fetched_nvti name (snd (nasl_plugin_add folder name w)) = Some n /\
               nvti_oid n = Some o) /\
  fst (nasl_plugin_add folder name (snd (nasl_plugin_add folder name w))) = 0 /\
  (forall e, e ∈ events_of (nasl_plugin_add folder name) (snd (nasl_plugin_add folder name w)) ->
             is_exec e = false) /\
  List.filter is_prefs_set
    (events_of (nasl_plugin_add folder name) (snd (nasl_plugin_add folder name w))) =
  List.filter is_prefs_set (events_of (nasl_plugin_add folder name) w) /\
  w_prefs (snd (nasl_plugin_add folder name (snd (nasl_plugin_add folder name w)))) =
  w_prefs (snd (nasl_plugin_add folder name w)).
Proof.
  intros Hok.
  assert (Hfirst : exists n o,
             fetched_nvti name (snd (nasl_plugin_add folder name w)) = Some n /\
             nvti_oid n = Some o /\
             List.filter is_prefs_set (events_of (nasl_plugin_add folder name) w) =
               merge_writes n (nvti_prefs n) /\
             w_prefs (snd (nasl_plugin_add folder name w)) =
               merge_prefs n (nvti_prefs n) (w_prefs w)).
  { destruct (nasl_plugin_add_cases folder name w) as [[d Hget]|[[Hget Hneg]|[d Hp]]].
    - destruct (nasl_plugin_add_hit_view folder name w d Hget)
        as (Hev & Hr & Hprefs & Hc & _).
      rewrite Hr in Hok. unfold accept_code in Hok.
      destruct (nvti_oid d) as [o|] eqn:Hoid; [|done].
      exists d, o. unfold fetched_nvti in *. rewrite Hc, Hev, Hprefs.
      change (List.filter is_prefs_set (EvCacheGet name :: accept_events name (Some d)))
        with (List.filter is_prefs_set (accept_events name (Some d))).
      rewrite accept_events_writes. unfold accept_prefs. by rewrite Hoid.
    - by rewrite (nasl_plugin_add_failed _ _ _ Hget Hneg) in Hok.
    - destruct (nasl_plugin_add_parsed_view folder name w d Hp)
        as (tev & Htev & Hev & Hr & Hprefs & Hc & _).
      rewrite Hr in Hok. destruct (nvti_oid d) eqn:Hoid; [|done].
      destruct (cache_get name (cache_add d name (w_cache w))) as [n|] eqn:Hre; [|done].
      unfold accept_code in Hok. destruct (nvti_oid n) as [o|] eqn:Hoidn; [|done].
      exists n, o. unfold fetched_nvti. rewrite Hc, Hev, Hprefs, Hre.
      rewrite !List.filter_app, (timestamp_events_no_writes tev Htev), accept_events_writes.
      unfold accept_prefs. by rewrite Hoidn. }
  destruct Hfirst as (n & o & Hget' & Hoidn & Hw & Hprefs).
  destruct (nasl_plugin_add_hit_view folder name _ n Hget') as (Hev' & Hr' & Hprefs' & _).
  split; [by exists n, o|].
  rewrite Hr', Hev', Hw, Hprefs'. unfold accept_code, accept_prefs. rewrite Hoidn.
  split; [done|]. split; [|split].
  - intros e [->|He]%elem_of_cons; [done|].
    by apply (accept_events_kinds name (Some n)) in He as (_ & ? & _).
  - change (List.filter is_prefs_set (accept_events name (Some n)) =
            merge_writes n (nvti_prefs n)).
    by rewrite accept_events_writes, Hoidn.
  - rewrite Hprefs. apply merge_prefs_again.
Qed.

Lemma g_strchomp_all_space (ws : string) :
  GLib.all_space ws = true -> GLib.g_strchomp ws = EmptyString.
Proof.
  induction ws as [|c r IH]; simpl; [done|].
  intros [Hc Hr]%andb_true_iff. by rewrite (IH Hr), Hc.
Qed.

Lemma g_strchomp_app_space (s ws : string) :
  GLib.all_space ws = true -> GLib.g_strchomp (s +:+ ws) = GLib.g_strchomp s.
Proof.
  intros Hws. induction s as [|c r IH]; simpl.
  - by apply g_strchomp_all_space.
  - by rewrite IH.
Qed.

(** X10.  Whitespace at the end of a preference's name does not tell two
    preferences apart: preferences of one type whose names differ only in
    trailing blanks, tabs, line feeds, form feeds or carriage returns get
    the same key, so that in a descriptor that declares both, the one
    declared last determines the stored value. *)
Theorem pref_key_ignores_trailing_space (n : nvti_t) (a b : nvtpref_t) (pn ws : string)
    (w : world) :
  Forall (fun c => c ∈ [" "; "009"; "010"; "012"; "013"]%char) (list_ascii_of_string ws) ->
  nvtpref_type b = nvtpref_type a ->
  nvtpref_name a = Some pn ->
  nvtpref_name b = Some (pn +:+ ws) ->
  pref_key n a = pref_key n b /\
  (nvti_prefs n = [a; b] ->
   w_prefs (snd (prefs_add_nvti (Some n) w)) !! pref_key n a = Some (nvtpref_default b)) /\
  (nvti_prefs n = [b; a] ->
   w_prefs (snd (prefs_add_nvti (Some n) w)) !! pref_key n b = Some (nvtpref_default a)).
Proof.
  intros Hws%GLibFacts.all_space_spec Htype Ha Hb.
  assert (Hkey : pref_key n a = pref_key n b).
  { unfold pref_key. rewrite Htype, Ha, Hb. simpl. by rewrite g_strchomp_app_space. }
  split; [exact Hkey|].
  rewrite prefs_add_nvti_run. simpl.
  split; intros ->; simpl.
  - rewrite Hkey. apply lookup_insert_eq.
  - rewrite <- Hkey. apply lookup_insert_eq.
Qed.

(** ** The path handed to the interpreter *)

Lemma substring_0_length (n : nat) (s : string) :
  (String.length (String.substring 0 n s) <= n)%nat.
Proof.
  revert s. induction n as [|n IH]; intros [|c s]; simpl; try lia.
  specialize (IH s). lia.
Qed.

Lemma substring_0_prefix (n : nat) (s : string) :
  exists rest, s = String.substring 0 n s +:+ rest.
Proof.
  revert s. induction n as [|n IH]; intros [|c s]; simpl.
  - by exists EmptyString.
  - by eexists.
  - by exists EmptyString.
  - destruct (IH s) as [rest Hrest]. exists rest. by rewrite Hrest at 1.
Qed.

Lemma substring_0_all (n : nat) (s : string) :
  (String.length s <= n)%nat -> String.substring 0 n s = s.
Proof.
  revert s. induction n as [|n IH]; intros [|c s]; simpl; try done; try lia.
  intros Hlen. rewrite IH by lia. done.
Qed.

(** Every path a call hands out is the one [snprintf] built. *)
Lemma nasl_plugin_add_path_events (folder name : string) (w : world) (e : event) :
  e ∈ events_of (nasl_plugin_add folder name) w ->
  match e with
  | EvExec _ path _ _ | EvStat path | EvUtime path _ _ =>
      path = snprintf_fullname folder name
  | EvCacheGet nm | EvCacheAdd _ nm => nm = name
  | _ => True
  end.
Proof.
  intros He.
  destruct (nasl_plugin_add_cases folder name w) as [[d Hget]|[[Hget Hneg]|[d Hp]]].
  - destruct (nasl_plugin_add_hit_view folder name w d Hget) as (Hev & _).
    rewrite Hev in He. apply elem_of_cons in He as [->|He]; [done|].
    unfold accept_events in He. destruct (nvti_oid d).
    + apply elem_of_app in He as [He|He]; [|scan He].
      by destruct (merge_writes_elem _ _ _ He) as (k & v & ->).
    + scan He.
  - rewrite (nasl_plugin_add_interpreter_failure_events folder name w Hget Hneg) in He.
    scan He.
  - destruct (nasl_plugin_add_parsed_exact folder name w d Hp) as (Hev & _).
    rewrite Hev in He.
    apply elem_of_app in He as [He|He]; [scan He|].
    apply elem_of_app in He as [He|He].
    { unfold timestamp_block_events in He.
      apply elem_of_cons in He as [->|He]; [done|].
      destruct (_ >? _); scan He. }
    unfold commit_events, accept_events in He.
    destruct (nvti_oid d); apply elem_of_app in He as [He|He]; try scan He.
    destruct (cache_get name _) as [r|]; [destruct (nvti_oid r)|]; try scan He.
    apply elem_of_app in He as [He|He]; [|scan He].
    by destruct (merge_writes_elem _ _ _ He) as (k & v & ->).
Qed.

(** X11.  The path a call hands to the interpreter, to [stat] and to
    [utime] never exceeds [PATH_MAX] characters: in every such event of
    the call it is the start of [folder/name], the whole of it when that
    fits and cut off otherwise, whereas every lookup and store of the cache
    is made under the whole [name].  On a cache miss the interpreter does
    get such a path. *)
Theorem nasl_plugin_add_paths_bounded (folder name : string) (w : world) :
  (forall e, e ∈ events_of (nasl_plugin_add folder name) w ->
     match e with
     | EvExec _ path _ _ | EvStat path | EvUtime path _ _ =>
         (String.length path <= PATH_MAX)%nat /\
         (exists rest, folder +:+ "/" +:+ name = path +:+ rest) /\
         ((String.length (folder +:+ "/" +:+ name) <= PATH_MAX)%nat ->
            path = folder +:+ "/" +:+ name)
     | EvCacheGet nm | EvCacheAdd _ nm => nm = name
     | _ => True
     end) /\
  (fetched_nvti name w = None ->
     exists args path mode,
       EvExec args path None mode ∈ events_of (nasl_plugin_add folder name) w /\
       (String.length path <= PATH_MAX)%nat).
Proof.
  split.
  - intros e He. apply nasl_plugin_add_path_events in He.
    destruct e; try done; simpl in He; rewrite He; unfold snprintf_fullname;
      (split; [apply substring_0_length|]); (split; [apply substring_0_prefix|]);
      apply substring_0_all.
  - intros Hget.
    exists descr_args, (snprintf_fullname folder name), (descr_mode w).
    split; [|apply substring_0_length].
    destruct (nasl_plugin_add_cases folder name w) as [[d Hhit]|[[_ Hneg]|[d Hp]]].
    + congruence.
    + rewrite (nasl_plugin_add_interpreter_failure_events folder name w Hget Hneg). locate.
    + destruct (nasl_plugin_add_parsed_exact folder name w d Hp) as (Hev & _).
      rewrite Hev. simpl. locate.
Qed.

(** ** [nasl_thread] and [nasl_plugin_launch] *)

(** What the worker of a launch leaves of the world: the stores are as
    they were, and the effective user id is the one the privilege drop
    answered, if it was called. *)
Lemma nasl_thread_launch_state (globals : arglist) (hostinfo : host_info) (kb : kb_t)
    (name : string) (oid : option string) (soc : Z) (w : world) :
  w_prefs (snd (nasl_thread (launch_args globals hostinfo kb name oid soc) w)) = w_prefs w /\
  w_cache (snd (nasl_thread (launch_args globals hostinfo kb name oid soc) w)) = w_cache w /\
  w_files (snd (nasl_thread (launch_args globals hostinfo kb name oid soc) w)) = w_files w /\
  p_euid (w_proc (snd (nasl_thread (launch_args globals hostinfo kb name oid soc) w))) =
    if bool_decide (w_prefs w !! "drop_privileges" = Some (Some "yes"))
    then snd (privileges_drop (proc_at_drop w))
    else p_euid (w_proc w).
Proof.
  destruct w as [prefs cache files tm stack [nv uid] err tr].
  unfold nasl_thread, launch_args, proc_at_drop, nice.
  exec_calls.
  destruct (bool_decide (prefs !! "be_nice" = Some (Some "yes"))); exec_calls;
    [destruct (uid =? 0); exec_calls; [destruct (_ =? -1); exec_calls|]|];
    destruct (bool_decide (prefs !! "nasl_no_signature_check" = Some (Some "yes"))); exec_calls;
    (destruct (bool_decide (prefs !! "drop_privileges" = Some (Some "yes"))); exec_calls;
     [destruct (privileges_drop _) as [r uid'] eqn:Hpd; exec_calls;
      destruct (r =? GVM_DROP_PRIVILEGES_OK); exec_calls;
      [|destruct (r =? GVM_DROP_PRIVILEGES_FAIL_NOT_ROOT); exec_calls]|]);
    done.
Qed.




(** X13.  With neither [be_nice] nor [drop_privileges] set to "yes", the
    worker of a launch calls neither [nice] nor [drop_privileges]: its
    events are the six listed, and it ends with the nice value and the user
    id it started with. *)
Theorem nasl_thread_without_preferences (globals : arglist) (hostinfo : host_info)
    (kb : kb_t) (name : string) (oid : option string) (soc : Z) (w : world) :
  w_prefs w !! "be_nice" <> Some (Some "yes") ->
  w_prefs w !! "drop_privileges" <> Some (Some "yes") ->
  events_of (nasl_thread (launch_args globals hostinfo kb name oid soc)) w =
    [EvCacheReset; EvChildCleanup; EvKbLnkReset kb; EvProctitle (hi_name hostinfo) name;
     EvExec (worker_args globals hostinfo kb soc) name oid (worker_mode w);
     EvSend soc None (Z.lor INTERNAL_COMM_MSG_TYPE_CTRL INTERNAL_COMM_CTRL_FINISHED)] /\
  w_proc (snd (nasl_thread (launch_args globals hostinfo kb name oid soc) w)) = w_proc w.
Proof.
  intros Hnice Hdrop.
  assert (Hn : bool_decide (w_prefs w !! "be_nice" = Some (Some "yes")) = false)
    by (by apply bool_decide_eq_false).
  assert (Hd : bool_decide (w_prefs w !! "drop_privileges" = Some (Some "yes")) = false)
    by (by apply bool_decide_eq_false).
  clear Hnice Hdrop. rename Hn into Hnice. rename Hd into Hdrop.
  destruct (nasl_thread_launch_view globals hostinfo kb name oid soc w) as (_ & Hev & Hp).
  destruct (nasl_thread_launch_state globals hostinfo kb name oid soc w) as (_ & _ & _ & Hu).
  rewrite Hev. unfold renice_events, drop_events, proc_at_drop in *.
  rewrite Hnice in Hp |- *. rewrite Hdrop in Hu |- *.
  split; [done|].
  destruct (w_proc (snd _)) as [n' u'], (w_proc w) as [n u]. simpl in Hp, Hu. by subst.
Qed.


(** X15.  The worker of a launch runs the interpreter exactly once: on
    the plugin's name with the launch's identifier, on the argument list of
    the launch, and in a mode that is the signature bypass when the
    preferences ask for it and 0 otherwise. *)
Theorem nasl_thread_runs_interpreter_once (globals : arglist) (hostinfo : host_info)
    (kb : kb_t) (name : string) (oid : option string) (soc : Z) (w : world) :
  List.filter is_exec (events_of (nasl_thread (launch_args globals hostinfo kb name oid soc)) w) =
    [EvExec (worker_args globals hostinfo kb soc) name oid
            (if bool_decide (w_prefs w !! "nasl_no_signature_check" = Some (Some "yes"))
             then Z.lor 0 NASL_ALWAYS_SIGNED else 0)] /\
  arg_get_value (worker_args globals hostinfo kb soc) "HOSTNAME" = Some (ARG_PTR_HOST hostinfo) /\
  arg_get_value (worker_args globals hostinfo kb soc) "key" = Some (ARG_PTR_KB kb).
Proof.
  destruct (nasl_thread_launch_view globals hostinfo kb name oid soc w) as (_ & Hev & _).
  rewrite Hev, !List.filter_app.
  rewrite (filter_nothing is_exec (renice_events w))
    by (intros e He; by apply renice_events_kinds in He as (_ & ? & _)).
  rewrite (filter_nothing is_exec (drop_events name w))
    by (intros e He; by apply drop_events_kinds in He as (_ & ?)).
  done.
Qed.

End MoreProperties.

(** * Further evaluation on concrete inputs *)

Section MoreInstances.

#[local] Existing Instance Fixture.linux.

Import Fixture FixtureMore.

Section PlainCacheAgain.

#[local] Existing Instance Fixture.plain_cache.

(** A first load that parses [good.nasl], then a second one. *)
Lemma nasl_plugin_add_success_then_hit_witness :
  fst (nasl_plugin_add (ext := ext_ok) "/p" "good.nasl" w_empty) = 0 /\
  fetched_nvti "good.nasl" w_empty = None /\
  fst (nasl_plugin_add (ext := ext_ok) "/p" "good.nasl"
         (snd (nasl_plugin_add (ext := ext_ok) "/p" "good.nasl" w_empty))) = 0 /\
  List.filter is_exec
    (events_of (nasl_plugin_add (ext := ext_ok) "/p" "good.nasl")
       (snd (nasl_plugin_add (ext := ext_ok) "/p" "good.nasl" w_empty))) = [] /\
  List.filter is_prefs_set
    (events_of (nasl_plugin_add (ext := ext_ok) "/p" "good.nasl")
       (snd (nasl_plugin_add (ext := ext_ok) "/p" "good.nasl" w_empty))) =
  List.filter is_prefs_set (events_of (nasl_plugin_add (ext := ext_ok) "/p" "good.nasl") w_empty).
Proof.
  assert (Hok : fst (nasl_plugin_add (ext := ext_ok) "/p" "good.nasl" w_empty) = 0)
    by (vm_compute; reflexivity).
  destruct (nasl_plugin_add_success_then_hit (ext := ext_ok) "/p" "good.nasl" w_empty Hok)
    as (Hr & Hex & _ & Hw).
  split; [exact Hok|]. split; [vm_compute; reflexivity|].
  split; [exact Hr|]. split; [exact Hex | exact Hw].
Defined.

(** A first load that parses [good.nasl] into an empty cache, then the
    second load. *)
Lemma nasl_plugin_add_second_load_witness :
  fetched_nvti "good.nasl" w_empty = None /\
  fst (nasl_plugin_add (ext := ext_ok) "/p" "good.nasl" w_empty) = 0 /\
  (exists n o,
     fetched_nvti "good.nasl" (snd (nasl_plugin_add (ext := ext_ok) "/p" "good.nasl" w_empty))
       = Some n /\ nvti_oid n = Some o) /\
  fst (nasl_plugin_add (ext := ext_ok) "/p" "good.nasl"
         (snd (nasl_plugin_add (ext := ext_ok) "/p" "good.nasl" w_empty))) = 0 /\
  (forall e, e ∈ events_of (nasl_plugin_add (ext := ext_ok) "/p" "good.nasl")
                   (snd (nasl_plugin_add (ext := ext_ok) "/p" "good.nasl" w_empty)) ->
             is_exec e = false) /\
  List.filter is_prefs_set
    (events_of (nasl_plugin_add (ext := ext_ok) "/p" "good.nasl")
       (snd (nasl_plugin_add (ext := ext_ok) "/p" "good.nasl" w_empty))) =
  List.filter is_prefs_set
    (events_of (nasl_plugin_add (ext := ext_ok) "/p" "good.nasl") w_empty) /\
  w_prefs (snd (nasl_plugin_add (ext := ext_ok) "/p" "good.nasl"
                  (snd (nasl_plugin_add (ext := ext_ok) "/p" "good.nasl" w_empty)))) =
  w_prefs (snd (nasl_plugin_add (ext := ext_ok) "/p" "good.nasl" w_empty)).
Proof.
  assert (Hok : fst (nasl_plugin_add (ext := ext_ok) "/p" "good.nasl" w_empty) = 0)
    by (vm_compute; reflexivity).
  split; [vm_compute; reflexivity|]. split; [exact Hok|].
  exact (nasl_plugin_add_second_load (ext := ext_ok) "/p" "good.nasl" w_empty Hok).
Defined.

(** The same for a name the cache held from the start. *)
Example second_load_of_a_cached_name :
  fetched_nvti "good.nasl" w_cached = Some good /\
  fst (nasl_plugin_add (ext := ext_ok) "/p" "good.nasl" w_cached) = 0 /\
  fst (nasl_plugin_add (ext := ext_ok) "/p" "good.nasl"
         (snd (nasl_plugin_add (ext := ext_ok) "/p" "good.nasl" w_cached))) = 0 /\
  events_of (nasl_plugin_add (ext := ext_ok) "/p" "good.nasl")
    (snd (nasl_plugin_add (ext := ext_ok) "/p" "good.nasl" w_cached)) =
  events_of (nasl_plugin_add (ext := ext_ok) "/p" "good.nasl") w_cached.
Proof. repeat split; vm_compute; reflexivity. Qed.

(** The interpreter fails on [broken.nasl]; the next call runs it again. *)
Lemma nasl_plugin_add_failure_not_cached_witness :
  fetched_nvti "broken.nasl" w_empty = None /\
  fst (descr_run (ext := ext_ok) "/p" "broken.nasl" w_empty) < 0 /\
  fst (nasl_plugin_add (ext := ext_ok) "/p" "broken.nasl" w_empty) = -1 /\
  w_cache (snd (nasl_plugin_add (ext := ext_ok) "/p" "broken.nasl" w_empty)) = w_cache w_empty /\
  List.filter is_exec
    (events_of (nasl_plugin_add (ext := ext_ok) "/p" "broken.nasl")
       (snd (nasl_plugin_add (ext := ext_ok) "/p" "broken.nasl" w_empty))) =
    [EvExec descr_args (snprintf_fullname "/p" "broken.nasl") None (descr_mode w_empty)].
Proof.
  assert (Hget : fetched_nvti "broken.nasl" w_empty = None) by (vm_compute; reflexivity).
  assert (Hneg : fst (descr_run (ext := ext_ok) "/p" "broken.nasl" w_empty) < 0)
    by (vm_compute; reflexivity).
  split; [exact Hget|]. split; [exact Hneg|].
  exact (nasl_plugin_add_failure_not_cached (ext := ext_ok) "/p" "broken.nasl" w_empty
           Hget (or_introl Hneg)).
Defined.

(** [now.nasl] was modified in the second of the call (time 1000). *)
Lemma nasl_plugin_add_utime_boundary_witness :
  parsed_nvti (ext := ext_any) "/p" "now.nasl" w_more = Some good /\
  w_files w_more !! snprintf_fullname "/p" "now.nasl" = Some (mk_file_times 900 1000 true) /\
  w_time w_more <= 1000 /\
  EvUtime (snprintf_fullname "/p" "now.nasl") (w_time w_more - 1) (w_time w_more - 1)
    ∈ events_of (nasl_plugin_add (ext := ext_any) "/p" "now.nasl") w_more.
Proof.
  assert (Hp : parsed_nvti (ext := ext_any) "/p" "now.nasl" w_more = Some good)
    by (vm_compute; reflexivity).
  assert (Hf : w_files w_more !! snprintf_fullname "/p" "now.nasl" =
               Some (mk_file_times 900 1000 true)) by (vm_compute; reflexivity).
  assert (Hge : w_time w_more <= st_mtime (mk_file_times 900 1000 true))
    by (vm_compute; discriminate).
  split; [exact Hp|]. split; [exact Hf|]. split; [exact Hge|].
  exact (proj1 (nasl_plugin_add_utime_boundary (ext := ext_any) "/p" "now.nasl" w_more
                  good _ Hp Hf) Hge).
Defined.

(** [old.nasl] was modified before: no [utime], files as they were. *)
Example old_file_is_left_alone :
  events_of (nasl_plugin_add (ext := ext_any) "/p" "old.nasl") w_more !! 3%nat =
    Some (EvStat "/p/old.nasl") /\
  events_of (nasl_plugin_add (ext := ext_any) "/p" "old.nasl") w_more !! 4%nat =
    Some (EvCacheAdd good "old.nasl") /\
  w_files (snd (nasl_plugin_add (ext := ext_any) "/p" "old.nasl" w_more)) = w_files w_more.
Proof. repeat split; vm_compute; reflexivity. Qed.

Lemma nasl_plugin_add_hit_ignores_folder_witness :
  fetched_nvti "good.nasl" w_cached = Some good /\
  nasl_plugin_add (ext := ext_ok) "/p" "good.nasl" w_cached =
  nasl_plugin_add (ext := ext_ok) "/elsewhere" "good.nasl" w_cached.
Proof.
  assert (Hget : fetched_nvti "good.nasl" w_cached = Some good) by (vm_compute; reflexivity).
  split; [exact Hget|].
  exact (nasl_plugin_add_hit_ignores_folder (ext := ext_ok) "/p" "/elsewhere" "good.nasl"
           w_cached good Hget).
Defined.

(** "Timeout" and "Timeout" followed by a blank, a tab and a line feed:
    one key, the value of the one declared last. *)
Lemma pref_key_ignores_trailing_space_witness :
  Forall (fun c => c ∈ [" "; "009"; "010"; "012"; "013"]%char)
         (list_ascii_of_string blank_tab_lf) /\
  nvtpref_type pref_d = nvtpref_type pref_b /\
  nvtpref_name pref_b = Some "Timeout" /\
  nvtpref_name pref_d = Some ("Timeout" +:+ blank_tab_lf) /\
  pref_key twins_d pref_b = pref_key twins_d pref_d /\
  w_prefs (snd (prefs_add_nvti (Some twins_d) w_empty)) !! pref_key twins_d pref_b =
    Some (nvtpref_default pref_d).
Proof.
  assert (Hws : Forall (fun c => c ∈ [" "; "009"; "010"; "012"; "013"]%char)
                       (list_ascii_of_string blank_tab_lf))
    by (apply GLibFacts.all_space_spec; vm_compute; reflexivity).
  assert (Htype : nvtpref_type pref_d = nvtpref_type pref_b) by reflexivity.
  assert (Hb : nvtpref_name pref_b = Some "Timeout") by reflexivity.
  assert (Hd : nvtpref_name pref_d = Some ("Timeout" +:+ blank_tab_lf)) by reflexivity.
  destruct (pref_key_ignores_trailing_space twins_d pref_b pref_d "Timeout" blank_tab_lf
              w_empty Hws Htype Hb Hd)
    as (Hkey & Hlast & _).
  split; [exact Hws|]. split; [exact Htype|]. split; [exact Hb|]. split; [exact Hd|].
  split; [exact Hkey | exact (Hlast eq_refl)].
Defined.

(** A vertical tab at the end of a name is kept, and so is a key of its
    own; a descriptor without a name gives keys that start with
    "(null)". *)
Example vertical_tab_and_null_name :
  GLib.g_strchomp (String "a" (String "011" (String " " EmptyString))) =
    String "a" (String "011" EmptyString) /\
  events_of (prefs_add_nvti (Some nameless)) w_empty =
    [EvPrefsSet "(null)[entry]:User" (Some "admin")].
Proof. split; vm_compute; reflexivity. Qed.

Lemma nasl_thread_without_preferences_witness :
  w_prefs w_quiet !! "be_nice" <> Some (Some "yes") /\
  w_prefs w_quiet !! "drop_privileges" <> Some (Some "yes") /\
  events_of (nasl_thread (ext := ext_ok)
               (launch_args arg_end (mk_host_info "h") 7 "x.nasl" (Some "1.2") 5)) w_quiet =
    [EvCacheReset; EvChildCleanup; EvKbLnkReset 7; EvProctitle "h" "x.nasl";
     EvExec (worker_args arg_end (mk_host_info "h") 7 5) "x.nasl" (Some "1.2")
            (worker_mode w_quiet);
     EvSend 5 None (Z.lor INTERNAL_COMM_MSG_TYPE_CTRL INTERNAL_COMM_CTRL_FINISHED)] /\
  w_proc (snd (nasl_thread (ext := ext_ok)
                 (launch_args arg_end (mk_host_info "h") 7 "x.nasl" (Some "1.2") 5) w_quiet)) =
    w_proc w_quiet.
Proof.
  assert (Hn : w_prefs w_quiet !! "be_nice" <> Some (Some "yes")) by (vm_compute; discriminate).
  assert (Hd : w_prefs w_quiet !! "drop_privileges" <> Some (Some "yes"))
    by (vm_compute; discriminate).
  split; [exact Hn|]. split; [exact Hd|].
  exact (nasl_thread_without_preferences (ext := ext_ok) arg_end (mk_host_info "h") 7
           "x.nasl" (Some "1.2") 5 w_quiet Hn Hd).
Defined.


(** A launch whose fork fails: -1 to the parent, no worker. *)
Example failed_fork_has_no_worker :
  nasl_plugin_launch (ext := ext_none) arg_end (mk_host_info "h") 7 "x.nasl" (Some "1.2") 5
    w_quiet =
  (-1,
   with_trace [EvCreateProcess (launch_args arg_end (mk_host_info "h") 7 "x.nasl" (Some "1.2") 5);
               EvArgFree] w_quiet,
   None).
Proof. vm_compute. reflexivity. Qed.

End PlainCacheAgain.

Section DeafCache.

#[local] Existing Instance FixtureMore.deaf_cache.

(** The store is lost: the parse succeeded, yet the call fails. *)
Lemma nasl_plugin_add_stored_but_not_found_witness :
  parsed_nvti (ext := ext_ok) "/p" "good.nasl" w_deaf = Some good /\
  nvti_oid good = Some "1.3.6.1.4.1.25623.1.0.1" /\
  refetched_nvti (ext := ext_ok) "/p" "good.nasl" w_deaf = None /\
  fst (nasl_plugin_add (ext := ext_ok) "/p" "good.nasl" w_deaf) = -1 /\
  EvCacheAdd good "good.nasl"
    ∈ events_of (nasl_plugin_add (ext := ext_ok) "/p" "good.nasl") w_deaf /\
  List.filter is_prefs_set (events_of (nasl_plugin_add (ext := ext_ok) "/p" "good.nasl") w_deaf)
    = [] /\
  w_prefs (snd (nasl_plugin_add (ext := ext_ok) "/p" "good.nasl" w_deaf)) = w_prefs w_deaf.
Proof.
  assert (Hp : parsed_nvti (ext := ext_ok) "/p" "good.nasl" w_deaf = Some good)
    by (vm_compute; reflexivity).
  assert (Hoid : nvti_oid good = Some "1.3.6.1.4.1.25623.1.0.1") by reflexivity.
  assert (Hre : refetched_nvti (ext := ext_ok) "/p" "good.nasl" w_deaf = None)
    by (vm_compute; reflexivity).
  destruct (nasl_plugin_add_stored_but_not_found (ext := ext_ok) "/p" "good.nasl" w_deaf
              good _ Hp Hoid Hre) as (Hr & _ & Hadd & _ & Hw & Hprefs).
  split; [exact Hp|]. split; [exact Hoid|]. split; [exact Hre|]. split; [exact Hr|].
  split; [exact Hadd|]. split; [exact Hw | exact Hprefs].
Defined.

End DeafCache.

End MoreInstances.
